(** * Currency converter: a shallow embedding of [app.py]

    The development follows the source file top to bottom:

    - [PyRuntime]: the handful of Python built-ins the program calls
      ([str.strip], [str.lower], [str.upper], [float()], the [.6f] and
      [,.6f] format specifications, truthiness, [in], subscripting,
      [dict.get], true division), over binary64 floats (the kernel's
      primitive floats) and a type [value] of Python/JSON values;
    - the program itself: [_try_fetch], [_fetch_base_rates],
      [_get_usd_rates], [available_codes] and [convert], written in a small
      state-and-exception monad over the module-level [_cache] and the log
      of HTTP requests;
    - the rounding error of binary64 division and multiplication, from
      their specification [SFdiv] and [SFmul];
    - the properties of the specification, one theorem per claim, and the
      scenarios that instantiate them;
    - the handlers of the form ([on_convert], [on_swap], [on_refresh]) and
      further properties of the program, read off the source.

    Text is modelled as ASCII strings (Rocq's [string] is a byte string):
    currency codes and dates are ASCII in the service's responses. *)

From Stdlib Require Import ZArith QArith Qpower Qabs Floats.
From Stdlib Require Import String Ascii List Bool Lia Lqa DecimalString.
From stdpp Require Import gmap strings list sorting.

Set Warnings "-inexact-float,-register-all".

Local Open Scope string_scope.
Local Open Scope Z_scope.

(** ** The Python run-time the program relies on *)

Module PyRuntime.

(** *** Strings *)

Definition is_upper (c : ascii) : bool :=
  let n := nat_of_ascii c in (65 <=? n)%nat && (n <=? 90)%nat.

Definition is_lower (c : ascii) : bool :=
  let n := nat_of_ascii c in (97 <=? n)%nat && (n <=? 122)%nat.

Definition is_digit (c : ascii) : bool :=
  let n := nat_of_ascii c in (48 <=? n)%nat && (n <=? 57)%nat.

(** [str.isspace] on ASCII: tab, line feed, vertical tab, form feed,
    carriage return, the four separators 0x1c-0x1f and the space. *)
Definition is_space (c : ascii) : bool :=
  let n := nat_of_ascii c in
  ((9 <=? n)%nat && (n <=? 13)%nat) || ((28 <=? n)%nat && (n <=? 32)%nat).

Definition ascii_lower (c : ascii) : ascii :=
  if is_upper c then ascii_of_nat (nat_of_ascii c + 32) else c.

Definition ascii_upper (c : ascii) : ascii :=
  if is_lower c then ascii_of_nat (nat_of_ascii c - 32) else c.

Fixpoint str_map (f : ascii -> ascii) (s : string) : string :=
  match s with
  | EmptyString => EmptyString
  | String c s' => String (f c) (str_map f s')
  end.

(** [s.lower()] and [s.upper()] *)
Definition lower : string -> string := str_map ascii_lower.
Definition upper : string -> string := str_map ascii_upper.

Fixpoint lstrip (s : string) : string :=
  match s with
  | String c s' => if is_space c then lstrip s' else s
  | EmptyString => EmptyString
  end.

Fixpoint rstrip (s : string) : string :=
  match s with
  | EmptyString => EmptyString
  | String c s' =>
      match rstrip s' with
      | EmptyString => if is_space c then EmptyString else String c EmptyString
      | r => String c r
      end
  end.

(** [s.strip()] *)
Definition strip (s : string) : string := rstrip (lstrip s).

Definition is_empty (s : string) : bool :=
  match s with EmptyString => true | _ => false end.

Fixpoint is_prefix (p s : string) : bool :=
  match p, s with
  | EmptyString, _ => true
  | String a p', String b s' => Ascii.eqb a b && is_prefix p' s'
  | String _ _, EmptyString => false
  end.

(** [p in s] for two strings: [p] occurs in [s] *)
Fixpoint is_substring (p s : string) : bool :=
  is_prefix p s ||
  match s with
  | EmptyString => false
  | String _ s' => is_substring p s'
  end.

(** Decimal numeral of a natural number, as [str(n)] prints it *)
Definition decimal (n : N) : string := NilZero.string_of_uint (N.to_uint n).

(** *** Exceptions

    A call either returns or raises.  Only the class of an exception
    matters to the program (every handler is [except Exception]); the
    message of the [RuntimeError] is kept because it is the program's own. *)

Inductive exn : Type :=
| TypeError
| ValueError
| AttributeError
| KeyError
| OverflowError
| ZeroDivisionError
| RequestError
| RuntimeError (msg : string).

Inductive result (A : Type) : Type :=
| Ok (a : A)
| Raise (e : exn).
Arguments Ok {A} a.
Arguments Raise {A} e.

(** *** Floats (binary64) *)

Definition sf_finite (s : bool) (m : Z) : spec_float :=
  match m with
  | Zpos p => S754_finite s p 0
  | _ => S754_zero s
  end.

(** The binary64 number nearest to [(-1)^s * num / den] (ties to even,
    overflow to infinity), for [num >= 0] and [den > 0]: IEEE division
    run on the two integers as exact, unnormalised floats. *)
Definition nearest_ratio (s : bool) (num den : Z) : float :=
  SF2Prim (SFdiv prec emax (sf_finite s num) (sf_finite false den)).

(** [float(n)] for an [int]: the nearest float, [OverflowError] when
    that is out of range. *)
Definition float_of_int (n : Z) : result float :=
  let f := nearest_ratio (n <? 0) (Z.abs n) 1 in
  if is_infinity f then Raise OverflowError else Ok f.

(** The value of a decimal literal [m * 10^e] *)
Definition float_of_decimal (s : bool) (m : Z) (e : Z) : float :=
  if 0 <=? e then nearest_ratio s (m * 10 ^ e) 1
  else nearest_ratio s m (10 ^ (- e)).

(** **** [float(s)] for a string

    The grammar of the language reference:
    [floatvalue ::= [sign] (floatnumber | "inf" | "infinity" | "nan")],
    [floatnumber ::= number [exponent]],
    [number ::= [digitpart] "." digitpart | digitpart ["."]],
    [digitpart ::= digit (["_"] digit)*],
    [exponent ::= ("e" | "E") [sign] digitpart],
    case-insensitive, surrounded by optional whitespace. *)

(** The white space that [float()] skips around the numeral of an ASCII
    string is C's: tab, line feed, vertical tab, form feed, carriage
    return and the space.  The separators 0x1c-0x1f, which [str.strip]
    removes, are not part of it: [float("\x1f1")] raises. *)
Definition is_c_space (c : ascii) : bool :=
  let n := nat_of_ascii c in
  ((9 <=? n)%nat && (n <=? 13)%nat) || Nat.eqb n 32.

Fixpoint skip_leading (space : ascii -> bool) (s : string) : string :=
  match s with
  | String c s' => if space c then skip_leading space s' else s
  | EmptyString => EmptyString
  end.

Fixpoint skip_trailing (space : ascii -> bool) (s : string) : string :=
  match s with
  | EmptyString => EmptyString
  | String c s' =>
      match skip_trailing space s' with
      | EmptyString => if space c then EmptyString else String c EmptyString
      | r => String c r
      end
  end.

Definition float_trim (s : string) : string :=
  skip_trailing is_c_space (skip_leading is_c_space s).

Definition digit_val (c : ascii) : Z := Z.of_nat (nat_of_ascii c) - 48.

(** After one digit: the rest [(["_"] digit)*] of a digit part.  Returns
    the digits read and what is left. *)
Fixpoint digits_tail (s : string) : list Z * string :=
  match s with
  | String c s' =>
      if is_digit c then
        let (ds, r) := digits_tail s' in (digit_val c :: ds, r)
      else if Ascii.eqb c "_" then
        match s' with
        | String d s'' =>
            if is_digit d then
              let (ds, r) := digits_tail s'' in (digit_val d :: ds, r)
            else ([], s)
        | EmptyString => ([], s)
        end
      else ([], s)
  | EmptyString => ([], s)
  end.

Definition digitpart (s : string) : option (list Z * string) :=
  match s with
  | String c s' =>
      if is_digit c then
        let (ds, r) := digits_tail s' in Some (digit_val c :: ds, r)
      else None
  | EmptyString => None
  end.

Definition digits_value (ds : list Z) : Z :=
  fold_left (fun acc d => 10 * acc + d) ds 0.

Definition read_sign (s : string) : bool * string :=
  match s with
  | String "+" s' => (false, s')
  | String "-" s' => (true, s')
  | _ => (false, s)
  end.

(** [number]: the integer and fraction digits, and what is left *)
Definition read_number (s : string) : option (list Z * list Z * string) :=
  match digitpart s with
  | Some (ip, String "." r) =>
      match digitpart r with
      | Some (fp, r') => Some (ip, fp, r')
      | None => Some (ip, [], r)
      end
  | Some (ip, r) => Some (ip, [], r)
  | None =>
      match s with
      | String "." r =>
          match digitpart r with
          | Some (fp, r') => Some ([], fp, r')
          | None => None
          end
      | _ => None
      end
  end.

(** [[exponent]]: its value (0 when absent) and what is left; [None] when
    an [e] is not followed by a digit part. *)
Definition read_exponent (s : string) : option (Z * string) :=
  match s with
  | String c r =>
      if Ascii.eqb (ascii_lower c) "e" then
        let (neg, r1) := read_sign r in
        match digitpart r1 with
        | Some (ds, r2) =>
            Some (if neg then - digits_value ds else digits_value ds, r2)
        | None => None
        end
      else Some (0, s)
  | EmptyString => Some (0, s)
  end.

Definition float_of_str (s : string) : result float :=
  let (neg, body) := read_sign (float_trim s) in
  let word := lower body in
  if String.eqb word "inf" || String.eqb word "infinity" then
    Ok (if neg then neg_infinity else infinity)
  else if String.eqb word "nan" then Ok nan
  else
    match read_number body with
    | Some (ip, fp, r) =>
        match read_exponent r with
        | Some (e, EmptyString) =>
            Ok (float_of_decimal neg (digits_value (ip ++ fp))
                  (e - Z.of_nat (length fp)))
        | _ => Raise ValueError
        end
    | None => Raise ValueError
    end.

(** **** Fixed-point formatting: [format(x, ".6f")] and [format(x, ",.6f")] *)

(** [num / den] rounded to the nearest integer, ties to even *)
Definition round_half_even (num den : Z) : Z :=
  let q := num / den in
  match (2 * (num mod den)) ?= den with
  | Lt => q
  | Gt => q + 1
  | Eq => if Z.even q then q else q + 1
  end.

(** [m * 2^e * 10^6], rounded to an integer *)
Definition micros (m : positive) (e : Z) : Z :=
  if 0 <=? e then Zpos m * 2 ^ e * 1000000
  else round_half_even (Zpos m * 1000000) (2 ^ (- e)).

(** A [","] before every group of three digits, counted from the right *)
Fixpoint commas (s : string) : string :=
  match s with
  | EmptyString => EmptyString
  | String c s' =>
      if negb (is_empty s') && (Nat.eqb (String.length s' mod 3) 0)
      then String c (String "," (commas s'))
      else String c (commas s')
  end.

Fixpoint zeros (n : nat) : string :=
  match n with
  | O => EmptyString
  | S n' => String "0" (zeros n')
  end.

Definition pad6 (n : Z) : string :=
  let d := decimal (Z.to_N n) in zeros (6 - String.length d) ++ d.

Definition fixed6 (grouping : bool) (x : float) : string :=
  let sign (s : bool) := if s then "-" else "" in
  match Prim2SF x with
  | S754_nan => "nan"
  | S754_infinity s => sign s ++ "inf"
  | S754_zero s => sign s ++ "0.000000"
  | S754_finite s m e =>
      let n := micros m e in
      let ip := decimal (Z.to_N (n / 1000000)) in
      sign s ++ (if grouping then commas ip else ip) ++ "." ++ pad6 (n mod 1000000)
  end.

(** *** Values

    What [json.loads] builds and what the form hands to [convert]:
    [None], [bool], [int], [float], [str], [list] and [dict] with string
    keys. *)

Inductive value : Type :=
| VNone
| VBool (b : bool)
| VInt (n : Z)
| VFloat (x : float)
| VStr (s : string)
| VList (l : list value)
| VDict (d : gmap string value).

(** [bool(v)] *)
Definition truthy (v : value) : bool :=
  match v with
  | VNone => false
  | VBool b => b
  | VInt n => negb (n =? 0)
  | VFloat x => negb (PrimFloat.eqb x 0)
  | VStr s => negb (is_empty s)
  | VList l => match l with [] => false | _ => true end
  | VDict d => negb (Nat.eqb (size d) 0)
  end.

(** [v is None] *)
Definition is_None (v : value) : bool :=
  match v with VNone => true | _ => false end.

(** [v == k] for a string [k] *)
Definition equals_str (k : string) (v : value) : bool :=
  match v with VStr s => String.eqb s k | _ => false end.

(** [k in v] for a string [k] *)
Definition py_contains (k : string) (v : value) : result bool :=
  match v with
  | VDict d => Ok (bool_decide (is_Some (d !! k)))
  | VList l => Ok (existsb (equals_str k) l)
  | VStr s => Ok (is_substring k s)
  | VNone | VBool _ | VInt _ | VFloat _ => Raise TypeError
  end.

(** [v[k]] for a string [k] *)
Definition py_getitem (v : value) (k : string) : result value :=
  match v with
  | VDict d => match d !! k with Some x => Ok x | None => Raise KeyError end
  | _ => Raise TypeError
  end.

(** [v.get(k)] *)
Definition py_get (v : value) (k : string) : result value :=
  match v with
  | VDict d => Ok (default VNone (d !! k))
  | _ => Raise AttributeError
  end.

(** [float(v)] *)
Definition py_float (v : value) : result float :=
  match v with
  | VFloat x => Ok x
  | VInt n => float_of_int n
  | VBool b => Ok (if b then 1%float else 0%float)
  | VStr s => float_of_str s
  | VNone | VList _ | VDict _ => Raise TypeError
  end.

(** The operand of an arithmetic operator, as a float: numbers only *)
Definition is_number (v : value) : bool :=
  match v with
  | VFloat _ | VInt _ | VBool _ => true
  | _ => false
  end.

Definition number (v : value) : result float :=
  if is_number v then py_float v else Raise TypeError.

Definition int_of (v : value) : option Z :=
  match v with
  | VInt n => Some n
  | VBool b => Some (if b then 1 else 0)
  | _ => None
  end.

(** [x * v] for a float [x] *)
Definition py_mul (x : float) (v : value) : result float :=
  match number v with
  | Ok y => Ok (x * y)%float
  | Raise e => Raise e
  end.

(** [v / w]: exact integer division rounded once when both are ints,
    float division otherwise; division by zero raises. *)
Definition py_truediv (v w : value) : result float :=
  if negb (is_number v && is_number w) then Raise TypeError else
  match int_of v, int_of w with
  | Some n, Some d =>
      if d =? 0 then Raise ZeroDivisionError
      else
        let q := nearest_ratio (xorb (n <? 0) (d <? 0)) (Z.abs n) (Z.abs d) in
        if is_infinity q then Raise OverflowError else Ok q
  | _, _ =>
      match number v with
      | Raise e => Raise e
      | Ok x =>
          match number w with
          | Raise e => Raise e
          | Ok y =>
              if PrimFloat.eqb y 0 then Raise ZeroDivisionError
              else Ok (x / y)%float
          end
      end
  end.

(** [format(v, ".6f")]: floats, and ints through [float] *)
Definition py_fixed6 (v : value) : result string :=
  match number v with
  | Ok x => Ok (fixed6 false x)
  | Raise e => Raise e
  end.

Section Str.
(** [str] of floats and containers is CPython's [repr]; the program only
    ever interpolates the [date] field of a response, a string in every
    response of the service, so that part of the run-time stays a
    parameter. *)
Variable repr_other : value -> string.

(** [str(v)], as an f-string field [{v}] renders it *)
Definition py_str (v : value) : string :=
  match v with
  | VStr s => s
  | VNone => "None"
  | VBool true => "True"
  | VBool false => "False"
  | VInt n => (if n <? 0 then "-" else "") ++ decimal (Z.to_N (Z.abs n))
  | VFloat _ | VList _ | VDict _ => repr_other v
  end.
End Str.

End PyRuntime.

Import PyRuntime.

(** ** The program state and its effects

    The module has one mutable global, [_cache], and talks to the network.
    A computation takes the world (the cache slot and the log of the URLs
    requested so far) and gives back a result or an exception together
    with the world it leaves behind: what a call did before it raised
    stays done. *)

Record Cache : Type := { ts : float; date : value; rates : value }.

Record World : Type := { cache : Cache; requests : list string }.

Definition M (A : Type) : Type := World -> result A * World.

Definition ret {A} (a : A) : M A := fun w => (Ok a, w).

Definition raise {A} (e : exn) : M A := fun w => (Raise e, w).

Definition bind {A B} (m : M A) (k : A -> M B) : M B := fun w =>
  match m w with
  | (Ok a, w') => k a w'
  | (Raise e, w') => (Raise e, w')
  end.

(** A pure call that may raise *)
Definition lift {A} (r : result A) : M A := fun w => (r, w).

(** [try: m  except Exception: h] *)
Definition try_except {A} (m : M A) (h : exn -> M A) : M A := fun w =>
  match m w with
  | (Ok a, w') => (Ok a, w')
  | (Raise e, w') => h e w'
  end.

Declare Scope py_scope.
Delimit Scope py_scope with py.
Notation "x <- m ;; k" := (bind m (fun x => k))
  (at level 20, m at level 99, k at level 200, only parsing) : py_scope.
Notation "' pat <- m ;; k" := (bind m (fun x => match x with pat => k end))
  (at level 20, pat pattern, m at level 99, k at level 200, only parsing) : py_scope.
Local Open Scope py_scope.

Definition PRIMARY_BASE : string :=
  "https://cdn.jsdelivr.net/npm/@fawazahmed0/currency-api@latest/v1/currencies".
Definition FALLBACK_BASE : string :=
  "https://latest.currency-api.pages.dev/v1/currencies".
Definition CACHE_TTL_SECS : float := 300%float.

(** [_cache = {"ts": 0, "date": None, "rates": {}}] *)
Definition _cache : Cache := {| ts := 0%float; date := VNone; rates := VDict ∅ |}.

Definition set_cache (c : Cache) : M unit := fun w =>
  (Ok tt, {| cache := c; requests := requests w |}).

Definition popular : list string :=
  ["USD"; "EUR"; "GBP"; "PKR"; "INR"; "AED"; "SAR"; "USDT"; "CNY"; "JPY"].

(** The order of [sorted] on strings *)
Definition str_le (s t : string) : Prop := String.leb s t = true.

#[global] Instance str_le_dec (s t : string) : Decision (str_le s t).
Proof. unfold str_le. apply _. Defined.

Section Program.

(** The network: the JSON body that a GET of the URL yields after the
    requests made so far, [None] when the request, its status check or
    the decoding of its body raises. *)
Variable http_get : list string -> string -> option value.

Variable repr_other : value -> string.

Definition _try_fetch (url : string) : M value := fun w =>
  let w' := {| cache := cache w; requests := (requests w ++ [url])%list |} in
  match http_get (requests w) url with
  | Some data => (Ok data, w')
  | None => (Raise RequestError, w')
  end.

(** The body of the [try] in [_fetch_base_rates]: [Some] when it
    returns, [None] when it falls through to the next root. *)
Definition fetch_attempt (root base : string) : M (option (value * value)) :=
  data <- _try_fetch (root ++ "/" ++ base ++ ".json") ;;
  has_date <- lift (py_contains "date" data) ;;
  if has_date then
    has_base <- lift (py_contains base data) ;;
    if has_base then
      d <- lift (py_getitem data "date") ;;
      r <- lift (py_getitem data base) ;;
      ret (Some (d, r))
    else ret None
  else ret None.

Fixpoint fetch_from (roots : list string) (base : string) : M (value * value) :=
  match roots with
  | root :: roots' =>
      r <- try_except (fetch_attempt root base) (fun _ => ret None) ;;
      match r with
      | Some out => ret out
      | None => fetch_from roots' base
      end
  | [] =>
      raise (RuntimeError
        "Could not download rates from both sources. Check internet access.")
  end.

Definition _fetch_base_rates (base_code : string) : M (value * value) :=
  let base := lower base_code in
  fetch_from [PRIMARY_BASE; FALLBACK_BASE] base.

(** [now] is what [time.time()] returns in this call. *)
Definition _get_usd_rates (force_refresh : bool) (now : float) : M (value * value) :=
  fun w =>
  let c := cache w in
  if negb force_refresh && truthy (rates c)
     && PrimFloat.ltb (now - ts c) CACHE_TTL_SECS
  then (Ok (date c, rates c), w)
  else
    ('(date, rates) <- _fetch_base_rates "usd" ;;
     _ <- set_cache {| ts := now; date := date; rates := rates |} ;;
     ret (date, rates)) w.

(** [usd.keys()] *)
Definition py_keys (v : value) : result (list string) :=
  match v with
  | VDict d => Ok (elements (dom d))
  | _ => Raise AttributeError
  end.

Definition available_codes (now : float) : M (list string) :=
  '(_, usd) <- _get_usd_rates true now ;;
  keys <- lift (py_keys usd) ;;
  let codes : gset string := list_to_set (map upper keys) ∪ {["USD"]} in
  let rest :=
    merge_sort str_le (filter (fun c => c ∉ popular) (elements codes)) in
  let ordered := (filter (fun c => c ∈ codes) popular ++ rest)%list in
  ret ordered.

(** [code or ""] *)
Definition or_empty (code : option string) : string := default "" code.

(** The [try] block of the direct fetch in [convert]: [Some] when it
    returns, [None] when it falls through. *)
Definition direct_attempt (amt : float) (a b from_code to_code : string)
  : M (option (string * string)) :=
  '(d_date, d_map) <- _fetch_base_rates a ;;
  direct <- lift (py_get d_map b) ;;
  if negb (is_None direct) then
    res <- lift (py_mul amt direct) ;;
    shown <- lift (py_fixed6 direct) ;;
    ret (Some (fixed6 true res ++ " " ++ upper to_code,
               "Rate: 1 " ++ upper from_code ++ " = " ++ shown ++ " "
               ++ upper to_code ++ "  (date " ++ py_str repr_other d_date ++ ")"))
  else ret None.

Definition convert (amount : value) (from_code to_code : option string)
  (now : float) : M (string * string) :=
  match py_float amount with
  | Raise _ => ret ("", "Invalid amount (must be a number).")
  | Ok amt =>
    if PrimFloat.ltb amt 0 then ret ("", "Amount must be non-negative.")
    else
      let a := lower (strip (or_empty from_code)) in
      let b := lower (strip (or_empty to_code)) in
      if is_empty a || is_empty b then ret ("", "Please choose both currencies.")
      else
        (* past this point both codes are non-empty strings *)
        let from_code := or_empty from_code in
        let to_code := or_empty to_code in
        '(date, usd) <- _get_usd_rates false now ;;
        r_from <- (if String.eqb a "usd" then ret (VFloat 1) else lift (py_get usd a)) ;;
        r_to <- (if String.eqb b "usd" then ret (VFloat 1) else lift (py_get usd b)) ;;
        if is_None r_from || is_None r_to then
          out <- try_except (direct_attempt amt a b from_code to_code)
                   (fun _ => ret None) ;;
          match out with
          | Some o => ret o
          | None =>
              ret ("", "Pair not available: " ++ upper from_code ++ " → "
                       ++ upper to_code)
          end
        else
          rate <- lift (py_truediv r_to r_from) ;;
          let res := (amt * rate)%float in
          ret (fixed6 true res ++ " " ++ upper to_code,
               "1 " ++ upper from_code ++ " = " ++ fixed6 false rate ++ " "
               ++ upper to_code ++ "  (last update " ++ py_str repr_other date ++ ")")
  end.

End Program.

(** ** Rounding error of binary64 multiplication and division

    What the round trip of a conversion needs: how far the rounded
    quotient and product of two floats are from the exact ones, from the
    definitions of [SFdiv] and [SFmul] that specify the primitive
    operations. *)

Section Rounding.

(** *** Shifts and locations *)

(** The record [(m, r, s)] of a right shift locates the rational [a / d]:
    [m] is its integer part, the round bit [r] says whether the rest
    reaches one half, the sticky bit [s] whether anything lies beyond
    that. *)
Definition locates (mrs : shr_record) (a d : Z) : Prop :=
  let m := shr_m mrs in
  0 <= m /\ 0 < d /\
  match shr_r mrs, shr_s mrs with
  | false, false => a = m * d
  | false, true => 2 * m * d < 2 * a < (2 * m + 1) * d
  | true, false => 2 * a = (2 * m + 1) * d
  | true, true => (2 * m + 1) * d < 2 * a < (2 * m + 2) * d
  end.

Lemma locates_shr_1 mrs a d :
  locates mrs a d -> locates (shr_1 mrs) a (2 * d).
Proof.
  destruct mrs as [m r s]. unfold locates. simpl.
  intros (Hm & Hd & H).
  destruct m as [|p|p]; [| |lia].
  - destruct r, s; simpl; lia.
  - destruct p as [p|p|]; destruct r, s; simpl; lia.
Qed.

Lemma pow2_xO (p : positive) : 2 ^ Zpos p~0 = 2 ^ Zpos p * 2 ^ Zpos p.
Proof.
  replace (Zpos p~0) with (Zpos p + Zpos p) by lia. apply Z.pow_add_r; lia.
Qed.

Lemma pow2_xI (p : positive) : 2 ^ Zpos p~1 = 2 * (2 ^ Zpos p * 2 ^ Zpos p).
Proof.
  replace (Zpos p~1) with (1 + (Zpos p + Zpos p)) by lia.
  rewrite !Z.pow_add_r by lia. reflexivity.
Qed.

Lemma locates_iter_pos p mrs a d :
  locates mrs a d -> locates (SpecFloat.iter_pos shr_1 p mrs) a (2 ^ Zpos p * d).
Proof.
  revert mrs d. induction p as [p IH|p IH|]; intros mrs d H; simpl SpecFloat.iter_pos.
  - apply locates_shr_1 in H. apply IH in H. apply IH in H.
    replace (2 ^ Zpos p~1 * d) with (2 ^ Zpos p * (2 ^ Zpos p * (2 * d)));
      [exact H | rewrite pow2_xI; ring].
  - apply IH in H. apply IH in H.
    replace (2 ^ Zpos p~0 * d) with (2 ^ Zpos p * (2 ^ Zpos p * d));
      [exact H | rewrite pow2_xO; ring].
  - apply locates_shr_1 in H. exact H.
Qed.

(** [shr] moves the exponent up by the number of bits it drops. *)
Lemma locates_shr mrs e n a d :
  locates mrs a d ->
  snd (shr mrs e n) = e + Z.max 0 n
  /\ locates (fst (shr mrs e n)) a (2 ^ Z.max 0 n * d).
Proof.
  intros H. destruct n as [|p|p]; simpl.
  - rewrite Z.add_0_r. split; [reflexivity|]. now rewrite Z.mul_1_l.
  - split; [reflexivity|]. now apply locates_iter_pos.
  - rewrite Z.add_0_r. split; [reflexivity|]. now rewrite Z.mul_1_l.
Qed.

(** The integer part *)
Lemma locates_floor mrs a d :
  locates mrs a d -> shr_m mrs * d <= a < (shr_m mrs + 1) * d.
Proof.
  destruct mrs as [m r s]. unfold locates. simpl. intros (Hm & Hd & H).
  destruct r, s; lia.
Qed.

(** Where a location puts [a / d] above the integer [m] *)
Definition located (m : Z) (l : location) (a d : Z) : Prop :=
  locates (shr_record_of_loc m l) a d.

(** Rounding to nearest moves by at most one half. *)
Lemma round_nearest_even_half mrs a d :
  locates mrs a d ->
  let mr := round_nearest_even (shr_m mrs) (loc_of_shr_record mrs) in
  0 <= mr /\ - d <= 2 * (mr * d - a) <= d.
Proof.
  destruct mrs as [m r s]. unfold locates. simpl.
  intros (Hm & Hd & H).
  destruct r, s; simpl.
  - lia.
  - destruct (Z.even m); lia.
  - lia.
  - lia.
Qed.

Lemma round_nearest_even_range m l :
  m <= round_nearest_even m l <= m + 1.
Proof.
  destruct l as [|[| |]]; simpl; try lia. destruct (Z.even m); lia.
Qed.

(** *** Digits and exponents *)

(** [digits2_pos m] is the number of bits of [m]. *)
Lemma digits2_pos_bounds (m : positive) :
  2 ^ (Zpos (digits2_pos m) - 1) <= Zpos m < 2 ^ Zpos (digits2_pos m).
Proof.
  induction m as [m IH|m IH|]; simpl digits2_pos.
  - rewrite Pos2Z.inj_succ.
    replace (Z.succ (Zpos (digits2_pos m)) - 1) with (1 + (Zpos (digits2_pos m) - 1)) by lia.
    rewrite Z.pow_succ_r, Z.pow_add_r by lia. change (2 ^ 1) with 2. lia.
  - rewrite Pos2Z.inj_succ.
    replace (Z.succ (Zpos (digits2_pos m)) - 1) with (1 + (Zpos (digits2_pos m) - 1)) by lia.
    rewrite Z.pow_succ_r, Z.pow_add_r by lia. change (2 ^ 1) with 2. lia.
  - simpl. lia.
Qed.

Lemma digits2_pos_unique (m : positive) (k : Z) :
  2 ^ (k - 1) <= Zpos m < 2 ^ k -> Zpos (digits2_pos m) = k.
Proof.
  intros [Hl Hu]. destruct (digits2_pos_bounds m) as [Dl Du].
  set (d := Zpos (digits2_pos m)) in *.
  assert (Hd : 0 < d) by (unfold d; lia).
  assert (Hk : 0 < k).
  { destruct (Z_lt_le_dec 0 k) as [?|Hneg]; [assumption|].
    assert (2 ^ k <= 1); [|lia].
    destruct (Z.eq_dec k 0) as [->|]; [simpl; lia|].
    rewrite Z.pow_neg_r by lia. lia. }
  destruct (Z_lt_le_dec d k) as [Hlt|Hge].
  - assert (2 ^ d <= 2 ^ (k - 1)) by (apply Z.pow_le_mono_r; lia). lia.
  - destruct (Z_lt_le_dec k d) as [Hlt|Hge'].
    + assert (2 ^ k <= 2 ^ (d - 1)) by (apply Z.pow_le_mono_r; lia). lia.
    + lia.
Qed.

Lemma Zdigits2_nonneg m : 0 <= Zdigits2 m.
Proof. destruct m; simpl; lia. Qed.

Lemma Zdigits2_bounds m :
  0 < m -> 2 ^ (Zdigits2 m - 1) <= m < 2 ^ Zdigits2 m.
Proof. destruct m as [|p|p]; try lia. intros _. apply digits2_pos_bounds. Qed.

Lemma Zdigits2_lt_pow m k : 0 <= m < 2 ^ k -> 0 <= k -> Zdigits2 m <= k.
Proof.
  intros [H0 Hk] Hk0. destruct (Z.eq_dec m 0) as [->|Hne]; [simpl; lia|].
  destruct (Zdigits2_bounds m ltac:(lia)) as [Hl _].
  destruct (Z_lt_le_dec k (Zdigits2 m)) as [Hlt|]; [|lia].
  assert (2 ^ k <= 2 ^ (Zdigits2 m - 1)) by (apply Z.pow_le_mono_r; lia). lia.
Qed.

Lemma Zdigits2_mono a b : 0 <= a <= b -> Zdigits2 a <= Zdigits2 b.
Proof.
  intros [Ha Hab]. destruct (Z.eq_dec b 0) as [->|Hb].
  - replace a with 0 by lia. lia.
  - apply Zdigits2_lt_pow; [|apply Zdigits2_nonneg].
    destruct (Zdigits2_bounds b ltac:(lia)). lia.
Qed.

Lemma fexp_mono a b : a <= b -> fexp prec emax a <= fexp prec emax b.
Proof. unfold fexp. lia. Qed.

Lemma fexp_succ z : fexp prec emax (z + 1) <= fexp prec emax z + 1.
Proof. unfold fexp. lia. Qed.

Lemma fexp_fexp z : fexp prec emax (fexp prec emax z) <= fexp prec emax z.
Proof. unfold fexp, SpecFloat.emin, prec, emax. lia. Qed.

(** After the first shift the mantissa fits its exponent. *)
Lemma shr_fexp_canonical mx ex lx a d :
  located mx lx a d ->
  let '(mrs, e) := shr_fexp prec emax mx ex lx in
  fexp prec emax (Zdigits2 (shr_m mrs) + e) <= e.
Proof.
  unfold located, shr_fexp. intros Hloc.
  set (n := fexp prec emax (Zdigits2 mx + ex) - ex).
  destruct (locates_shr _ ex n _ _ Hloc) as [He Hl].
  destruct (shr (shr_record_of_loc mx lx) ex n) as [mrs e]. simpl in He, Hl.
  assert (Hmx : 0 <= mx).
  { destruct Hloc as (H & _). now destruct lx as [|[| |]]. }
  apply locates_floor in Hloc, Hl.
  replace (shr_m (shr_record_of_loc mx lx)) with mx in Hloc
    by now destruct lx as [|[| |]].
  assert (Hd : 0 < d) by nia.
  set (m' := shr_m mrs) in *.
  assert (Hk : 0 < 2 ^ Z.max 0 n) by (apply Z.pow_pos_nonneg; lia).
  assert (Hm' : m' * 2 ^ Z.max 0 n <= mx).
  { assert (m' * 2 ^ Z.max 0 n * d < (mx + 1) * d) by lia.
    apply Z.mul_lt_mono_pos_r in H; lia. }
  assert (Hm0 : 0 <= m').
  { destruct (Z_lt_le_dec m' 0); [|assumption]. nia. }
  destruct (Z_lt_le_dec 0 n) as [Hn|Hn].
  - (* bits were dropped: [e] is the exponent [fexp] asked for *)
    rewrite Z.max_r in He, Hm' by lia.
    assert (He' : e = fexp prec emax (Zdigits2 mx + ex)) by (unfold n in He; lia).
    destruct (Z.eq_dec m' 0) as [->|Hne].
    + simpl. rewrite He'. apply fexp_fexp.
    + rewrite He' at 2. apply fexp_mono.
      destruct (Zdigits2_bounds m' ltac:(lia)) as [Hl' _].
      assert (Hmx' : 0 < mx) by nia.
      destruct (Zdigits2_bounds mx Hmx') as [_ Hu].
      assert (Hp : 2 ^ (Zdigits2 m' - 1) * 2 ^ n <= m' * 2 ^ n)
        by (apply Z.mul_le_mono_nonneg_r; lia).
      assert (Hd' : 0 < Zdigits2 m') by (destruct m'; simpl; lia).
      rewrite <- Z.pow_add_r in Hp by lia.
      assert (Hlt : 2 ^ (Zdigits2 m' - 1 + n) < 2 ^ Zdigits2 mx) by lia.
      apply Z.pow_lt_mono_r_iff in Hlt; [lia | lia | apply Zdigits2_nonneg].
  - rewrite Z.max_l in He, Hm' by lia. rewrite Z.pow_0_r, Z.mul_1_r in Hm'.
    replace e with ex by lia.
    apply Z.le_trans with (fexp prec emax (Zdigits2 mx + ex)); [|unfold n in Hn; lia].
    apply fexp_mono. pose proof (Zdigits2_mono m' mx ltac:(lia)). lia.
Qed.

(** The second shift of [binary_round_aux] never loses a bit: it happens
    only when rounding carried into a new leading bit, and then the
    mantissa is a power of two. *)
Lemma second_shift_exact (m' mr e1 : Z) (p : positive) :
  0 <= m' -> m' <= mr <= m' + 1 ->
  fexp prec emax (Zdigits2 m' + e1) <= e1 ->
  let '(mrs, e) := shr_fexp prec emax mr e1 loc_Exact in
  shr_m mrs = Zpos p ->
  exists k, 0 <= k /\ e = e1 + k /\ Zpos p * 2 ^ k = mr.
Proof.
  intros Hm' Hmr Hcan. unfold shr_fexp.
  set (n := fexp prec emax (Zdigits2 mr + e1) - e1).
  assert (Hloc : locates (shr_record_of_loc mr loc_Exact) mr 1).
  { unfold locates. simpl. lia. }
  destruct (locates_shr _ e1 n _ _ Hloc) as [He Hl].
  destruct (Z_lt_le_dec 0 n) as [Hn|Hn].
  - (* a shift: the rounding carried *)
    assert (Hdig : Zdigits2 m' < Zdigits2 mr).
    { destruct (Z_lt_le_dec (Zdigits2 m') (Zdigits2 mr)); [assumption|].
      assert (fexp prec emax (Zdigits2 mr + e1) <= fexp prec emax (Zdigits2 m' + e1))
        by (apply fexp_mono; lia).
      unfold n in Hn. lia. }
    assert (Hcarry : mr = m' + 1).
    { destruct (Z.eq_dec mr m') as [->|]; lia. }
    assert (Hpow : mr = 2 ^ Zdigits2 m').
    { destruct (Z_lt_le_dec mr (2 ^ Zdigits2 m')) as [Hlt|Hge].
      - pose proof (Zdigits2_lt_pow mr (Zdigits2 m') ltac:(lia) (Zdigits2_nonneg _)). lia.
      - destruct (Z.eq_dec m' 0) as [->|Hne]; [simpl in *; lia|].
        destruct (Zdigits2_bounds m' ltac:(lia)). lia. }
    assert (Hdmr : Zdigits2 mr <= Zdigits2 m' + 1).
    { apply Zdigits2_lt_pow; [|pose proof (Zdigits2_nonneg m'); lia].
      rewrite Hpow, Z.pow_add_r by (try apply Zdigits2_nonneg; lia).
      pose proof (Z.pow_pos_nonneg 2 (Zdigits2 m') ltac:(lia) (Zdigits2_nonneg _)). lia. }
    assert (Hn1 : n = 1).
    { pose proof (fexp_succ (Zdigits2 m' + e1)).
      assert (fexp prec emax (Zdigits2 mr + e1) <= fexp prec emax (Zdigits2 m' + e1 + 1))
        by (apply fexp_mono; lia).
      unfold n in *. lia. }
    rewrite Hn1 in *. change (Z.max 0 1) with 1 in He, Hl.
    destruct (shr (shr_record_of_loc mr loc_Exact) e1 1) as [mrs e]. simpl in He, Hl.
    intros Hp. exists 1. split; [lia|]. split; [exact He|].
    apply locates_floor in Hl. rewrite Hp in Hl. change (2 ^ 1) with 2 in *.
    destruct (Z.eq_dec (Zdigits2 m') 0) as [H0|H0].
    + rewrite H0 in Hpow. change (2 ^ 0) with 1 in Hpow. lia.
    + assert (Hd : 0 < Zdigits2 m') by (pose proof (Zdigits2_nonneg m'); lia).
      replace (Zdigits2 m') with (1 + (Zdigits2 m' - 1)) in Hpow by lia.
      rewrite Z.pow_add_r in Hpow by lia. change (2 ^ 1) with 2 in Hpow.
      lia.
  - rewrite Z.max_l in He, Hl by lia.
    destruct (shr (shr_record_of_loc mr loc_Exact) e1 n) as [mrs e]. simpl in He, Hl.
    intros Hp. exists 0. split; [lia|]. split; [exact He|].
    apply locates_floor in Hl. rewrite Hp in Hl. simpl in Hl. lia.
Qed.

(** The result of [binary_round_aux] on a located rational [a / d * 2^ex],
    when it is a finite number [m * 2^e]: the exponent went up by some
    [k], and [m * 2^k] is within one half of [a / d]. *)
Lemma binary_round_aux_nearest sx mx ex lx a d s m e :
  located mx lx a d ->
  binary_round_aux prec emax sx mx ex lx = S754_finite s m e ->
  s = sx /\
  exists k, 0 <= k /\ e = ex + k /\
    - (2 ^ k * d) <= 2 * (Zpos m * 2 ^ k * d - a) <= 2 ^ k * d.
Proof.
  intros Hloc Hres.
  pose proof (shr_fexp_canonical mx ex lx a d Hloc) as Hcan.
  unfold binary_round_aux in Hres.
  unfold located, shr_fexp in Hloc, Hcan.
  destruct (locates_shr _ ex (fexp prec emax (Zdigits2 mx + ex) - ex) _ _ Hloc)
    as (He1 & Hl1).
  unfold shr_fexp in Hres at 1.
  set (k1 := Z.max 0 (fexp prec emax (Zdigits2 mx + ex) - ex)) in *.
  assert (Hk1 : 0 <= k1) by apply Z.le_max_l.
  destruct (shr (shr_record_of_loc mx lx) ex _) as [mrs1 e1].
  simpl in He1, Hl1.
  destruct (round_nearest_even_half _ _ _ Hl1) as [Hmr Hhalf].
  pose proof (round_nearest_even_range (shr_m mrs1) (loc_of_shr_record mrs1)) as Hrange.
  set (mr := round_nearest_even (shr_m mrs1) (loc_of_shr_record mrs1)) in *.
  assert (Hm1 : 0 <= shr_m mrs1) by (destruct Hl1 as (H & _); exact H).
  pose proof (fun p => second_shift_exact (shr_m mrs1) mr e1 p Hm1 Hrange Hcan) as Hsec.
  destruct (shr_fexp prec emax mr e1 loc_Exact) as [mrs2 e2].
  destruct (shr_m mrs2) as [|p|p] eqn:Hm2; try discriminate.
  destruct (e2 <=? emax - prec); [|discriminate].
  injection Hres as <- <- <-.
  destruct (Hsec p eq_refl) as (k2 & Hk2 & He2 & Hexact).
  split; [reflexivity|].
  exists (k1 + k2). split; [lia|]. split; [lia|].
  rewrite Z.pow_add_r by lia.
  assert (H1 : 0 < 2 ^ k1) by (apply Z.pow_pos_nonneg; lia).
  assert (H2 : 1 <= 2 ^ k2).
  { pose proof (Z.pow_pos_nonneg 2 k2 ltac:(lia) Hk2). lia. }
  destruct Hl1 as (_ & Hd & _).
  replace (Zpos p * (2 ^ k1 * 2 ^ k2) * d) with (mr * (2 ^ k1 * d))
    by (rewrite <- Hexact; ring).
  set (u := 2 ^ k1 * d) in *.
  replace (2 ^ k1 * 2 ^ k2 * d) with (2 ^ k2 * u) by (unfold u; ring).
  assert (Hu : u <= 2 ^ k2 * u).
  { replace u with (1 * u) at 1 by ring. apply Z.mul_le_mono_nonneg_r; lia. }
  clearbody u mr. lia.
Qed.

(** When the result is a normal number, its mantissa has 53 bits and one
    half unit is [2^-53] of it: [m * 2^k] is within [2^-53] of [a / d],
    relative to itself. *)
Lemma binary_round_aux_normal sx mx ex lx a d s m e :
  located mx lx a d ->
  binary_round_aux prec emax sx mx ex lx = S754_finite s m e ->
  Zpos (digits2_pos m) = prec ->
  s = sx /\
  exists k, 0 <= k /\ e = ex + k /\
    - (Zpos m * 2 ^ k * d) <= 2 ^ 53 * (Zpos m * 2 ^ k * d - a)
      <= Zpos m * 2 ^ k * d.
Proof.
  intros Hloc Hres Hdig.
  destruct (binary_round_aux_nearest _ _ _ _ _ _ _ _ _ Hloc Hres)
    as (Hs & k & Hk & He & Hb).
  split; [exact Hs|]. exists k. split; [exact Hk|]. split; [exact He|].
  assert (Hp := digits2_pos_bounds m). rewrite Hdig in Hp.
  change (2 ^ (prec - 1)) with 4503599627370496 in Hp.
  change (2 ^ 53) with 9007199254740992.
  assert (Hd : 0 < d) by (destruct Hloc as (_ & H & _); exact H).
  assert (Hu : 0 < 2 ^ k * d).
  { apply Z.mul_pos_pos; [apply Z.pow_pos_nonneg; lia | exact Hd]. }
  rewrite <- Z.mul_assoc in *.
  set (u := 2 ^ k * d) in *. clearbody u.
  assert (F : 4503599627370496 * u <= Zpos m * u)
    by (apply Z.mul_le_mono_nonneg_r; lia).
  lia.
Qed.

(** The quotient, exponent and location that [SFdiv_core_binary] hands to
    the rounding: they locate [m1 * 2^s / m2] for the [s >= 0] with
    [e' + s = e1 - e2]. *)
Lemma SFdiv_core_binary_located m1 e1 m2 e2 q e' l :
  0 < m1 -> 0 < m2 ->
  SFdiv_core_binary prec emax m1 e1 m2 e2 = (q, e', l) ->
  exists s, 0 <= s /\ e' + s = e1 - e2 /\ located q l (m1 * 2 ^ s) m2.
Proof.
  intros H1 H2. unfold SFdiv_core_binary.
  set (e0 := Z.min _ (e1 - e2)).
  assert (He0 : e0 <= e1 - e2) by apply Z.le_min_r.
  set (s := e1 - e2 - e0).
  assert (Hs : 0 <= s) by (unfold s; lia).
  set (m' := match s with Zpos _ => Z.shiftl m1 s | Z0 => m1 | Zneg _ => 0 end).
  assert (Hm' : m' = m1 * 2 ^ s).
  { unfold m'. destruct s as [|p|p]; [ring | apply Z.shiftl_mul_pow2; lia | lia]. }
  assert (Hpos : 0 < 2 ^ s) by (apply Z.pow_pos_nonneg; lia).
  assert (Hdiv := Z_div_mod m' m2 ltac:(lia)).
  destruct (Z.div_eucl m' m2) as [q0 r0]. destruct Hdiv as [Hq Hr].
  intros [= <- <- <-].
  exists s. split; [exact Hs|]. split; [unfold s; lia|].
  rewrite <- Hm'. clearbody m' s e0.
  assert (Hq0 : 0 <= q0) by nia.
  unfold located, locates, new_location, new_location_even, new_location_odd.
  destruct (Z.even m2) eqn:Hev.
  - destruct (Z.eqb_spec r0 0) as [->|Hne]; simpl.
    + lia.
    + destruct (Z.compare_spec (2 * r0) m2); simpl; lia.
  - destruct (Z.eqb_spec r0 0) as [->|Hne]; simpl.
    + lia.
    + assert (Hodd : 2 * r0 <> m2).
      { intros <-. rewrite Z.even_mul in Hev. discriminate. }
      destruct (Z.compare_spec (2 * r0 + 1) m2); simpl; lia.
Qed.

(** *** A product near 1 is a normal number *)

(** An exact [M * 2^E], where [M] has more than 53 bits and the leading
    bit lies well inside the exponent range, rounds to a normal number. *)
Lemma binary_round_aux_exact_normal sx (M : positive) (E : Z) :
  prec < Zpos (digits2_pos M) ->
  -1000 <= Zpos (digits2_pos M) + E <= 1000 ->
  exists m e,
    binary_round_aux prec emax sx (Zpos M) E loc_Exact = S754_finite sx m e
    /\ Zpos (digits2_pos m) = prec.
Proof.
  intros Hbig Hrange.
  destruct (digits2_pos_bounds M) as [Dl Du].
  set (dM := Zpos (digits2_pos M)) in *.
  unfold binary_round_aux, shr_fexp.
  change (Zdigits2 (Zpos M)) with dM.
  assert (Hf1 : fexp prec emax (dM + E) = dM + E - prec).
  { unfold fexp, SpecFloat.emin. apply Z.max_l. unfold prec, emax in *. lia. }
  rewrite Hf1.
  set (n1 := dM + E - prec - E).
  assert (Hn1 : n1 = dM - prec) by (unfold n1; lia).
  assert (Hloc : locates (shr_record_of_loc (Zpos M) loc_Exact) (Zpos M) 1).
  { unfold locates. simpl. lia. }
  destruct (locates_shr _ E n1 _ _ Hloc) as [He1 Hl1].
  destruct (shr (shr_record_of_loc (Zpos M) loc_Exact) E n1) as [mrs1 e1].
  simpl in He1, Hl1.
  rewrite Z.max_r in He1, Hl1 by (unfold prec in *; lia).
  rewrite Z.mul_1_r in Hl1.
  apply locates_floor in Hl1.
  set (m' := shr_m mrs1) in *.
  assert (Hpow : 2 ^ dM = 2 ^ prec * 2 ^ n1).
  { rewrite <- Z.pow_add_r by (unfold prec in *; lia). f_equal. lia. }
  assert (Hpow' : 2 ^ (dM - 1) = 2 ^ (prec - 1) * 2 ^ n1).
  { rewrite <- Z.pow_add_r by (unfold prec in *; lia). f_equal. lia. }
  assert (Hp1 : 0 < 2 ^ n1) by (apply Z.pow_pos_nonneg; unfold prec in *; lia).
  assert (Hm' : 2 ^ (prec - 1) <= m' < 2 ^ prec).
  { rewrite Hpow in Du. rewrite Hpow' in Dl. clearbody n1 m'. split.
    - assert (2 ^ (prec - 1) * 2 ^ n1 < (m' + 1) * 2 ^ n1) by lia.
      apply Z.mul_lt_mono_pos_r in H; [lia | exact Hp1].
    - assert (m' * 2 ^ n1 < 2 ^ prec * 2 ^ n1) by lia.
      apply Z.mul_lt_mono_pos_r in H; [lia | exact Hp1]. }
  pose proof (round_nearest_even_range m' (loc_of_shr_record mrs1)) as Hmr.
  set (mr := round_nearest_even m' (loc_of_shr_record mrs1)) in *.
  clearbody mr m'. clear Hl1 Hloc Hpow Hpow' Dl Du.
  assert (He1' : e1 = dM + E - prec) by lia.
  change (2 ^ (prec - 1)) with 4503599627370496 in Hm'.
  change (2 ^ prec) with 9007199254740992 in Hm'.
  destruct (Z.eq_dec mr 9007199254740992) as [->|Hne].
  - (* the rounding carried into a 54th bit: one more shift *)
    change (Zdigits2 9007199254740992) with 54.
    assert (Hf2 : fexp prec emax (54 + e1) - e1 = 1).
    { unfold fexp, SpecFloat.emin. rewrite Z.max_l; unfold prec, emax in *; lia. }
    rewrite Hf2. simpl.
    assert (Hle : (e1 + 1 <=? emax - prec) = true).
    { apply Z.leb_le. unfold prec, emax in *. lia. }
    rewrite Hle. eexists _, _. split; reflexivity.
  - destruct mr as [|pr|pr]; try lia.
    assert (Hdig : Zpos (digits2_pos pr) = prec).
    { apply digits2_pos_unique. change (2 ^ (prec - 1)) with 4503599627370496.
      change (2 ^ prec) with 9007199254740992. lia. }
    change (Zdigits2 (Zpos pr)) with (Zpos (digits2_pos pr)). rewrite Hdig.
    assert (Hf2 : fexp prec emax (prec + e1) - e1 = 0).
    { unfold fexp, SpecFloat.emin. rewrite Z.max_l; unfold prec, emax in *; lia. }
    rewrite Hf2. simpl.
    assert (Hle : (e1 <=? emax - prec) = true).
    { apply Z.leb_le. unfold prec, emax in *. lia. }
    rewrite Hle. eexists _, _. split; [reflexivity | exact Hdig].
Qed.

(** *** Values *)

Local Open Scope Q_scope.

Definition pow2 (e : Z) : Q := Qpower 2 e.

(** The absolute value of a finite float *)
Definition magnitude (f : spec_float) : Q :=
  match f with
  | S754_finite _ m e => inject_Z (Zpos m) * pow2 e
  | _ => 0
  end.

Definition SF2Q (f : spec_float) : Q :=
  match f with
  | S754_finite true _ _ => - magnitude f
  | _ => magnitude f
  end.

(** The rational a finite float stands for (0 for the others) *)
Definition float_value (x : float) : Q := SF2Q (Prim2SF x).

(** Neither zero, subnormal, infinite nor NaN *)
Definition is_normal (x : float) : bool :=
  match classify x with
  | PNormal | NNormal => true
  | _ => false
  end.

Lemma pow2_pos e : 0 < pow2 e.
Proof. apply Qpower_0_lt. reflexivity. Qed.

Lemma pow2_add a b : pow2 (a + b) == pow2 a * pow2 b.
Proof. apply Qpower_plus. discriminate. Qed.

Lemma pow2_inject k : (0 <= k)%Z -> inject_Z (2 ^ k) == pow2 k.
Proof. intros H. unfold pow2. now rewrite Zpower_Qpower. Qed.

(** An integer bound scaled by a positive factor *)
Lemma scaled_bound (M a : Z) (T : Q) :
  0 < T ->
  (- M <= 2 ^ 53 * (M - a) <= M)%Z ->
  - (inject_Z M * T) <= inject_Z (2 ^ 53) * (inject_Z M * T - inject_Z a * T)
  /\ inject_Z (2 ^ 53) * (inject_Z M * T - inject_Z a * T) <= inject_Z M * T.
Proof.
  intros HT [H1 H2].
  rewrite Zle_Qle in H1, H2.
  assert (E1 : inject_Z (- M) == - inject_Z M)
    by (rewrite inject_Z_opp; reflexivity).
  assert (E2 : inject_Z (2 ^ 53 * (M - a)) == inject_Z (2 ^ 53) * (inject_Z M - inject_Z a))
    by (unfold Z.sub; rewrite inject_Z_mult, inject_Z_plus, inject_Z_opp; reflexivity).
  rewrite E1, E2 in H1. rewrite E2 in H2. clear E1 E2.
  set (m := inject_Z M) in *. set (x := inject_Z a) in *.
  set (c := inject_Z (2 ^ 53)) in *.
  apply Qlt_le_weak in HT.
  apply (Qmult_le_compat_r _ _ T) in H1; [|exact HT].
  apply (Qmult_le_compat_r _ _ T) in H2; [|exact HT].
  split.
  - eapply Qle_trans; [|eapply Qle_trans; [exact H1|]];
      apply Qle_lteq; right; ring.
  - eapply Qle_trans; [|eapply Qle_trans; [exact H2|]];
      apply Qle_lteq; right; ring.
Qed.

(** The unit roundoff: [rounded] is within [2^-53] of [exact], relative
    to itself. *)
Definition close (rounded exact : Q) : Prop :=
  - rounded <= inject_Z (2 ^ 53) * (rounded - exact)
  /\ inject_Z (2 ^ 53) * (rounded - exact) <= rounded.

#[local] Instance close_proper : Proper (Qeq ==> Qeq ==> iff) close.
Proof. intros r r' Hr x x' Hx. unfold close. now rewrite Hr, Hx. Qed.

(** A normal quotient [m * 2^e] of [y / x]: times [x], it is close to
    [y]. *)
Lemma SFdiv_normal_close sy my ey sx mx ex s m e :
  SFdiv prec emax (S754_finite sy my ey) (S754_finite sx mx ex) = S754_finite s m e ->
  Zpos (digits2_pos m) = prec ->
  s = xorb sy sx /\
  close (inject_Z (Zpos m) * pow2 e * (inject_Z (Zpos mx) * pow2 ex))
        (inject_Z (Zpos my) * pow2 ey).
Proof.
  unfold SFdiv. intros Hres Hdig.
  destruct (SFdiv_core_binary prec emax (Zpos my) ey (Zpos mx) ex) as [[q e'] l] eqn:Hcore.
  destruct (SFdiv_core_binary_located _ _ _ _ _ _ _ (Pos2Z.is_pos my) (Pos2Z.is_pos mx) Hcore)
    as (s0 & Hs0 & He' & Hloc).
  destruct (binary_round_aux_normal _ _ _ _ _ _ _ _ _ Hloc Hres Hdig)
    as (Hs & k & Hk & He & Hb).
  split; [exact Hs|].
  pose proof (scaled_bound _ _ (pow2 (e' + ex)) (pow2_pos _) Hb) as Hq.
  assert (E1 : inject_Z (Zpos m * 2 ^ k * Zpos mx) * pow2 (e' + ex)
               == inject_Z (Zpos m) * pow2 e * (inject_Z (Zpos mx) * pow2 ex)).
  { rewrite !inject_Z_mult, (pow2_inject k Hk), He, !pow2_add. ring. }
  assert (E2 : inject_Z (Zpos my * 2 ^ s0) * pow2 (e' + ex)
               == inject_Z (Zpos my) * pow2 ey).
  { rewrite !inject_Z_mult, (pow2_inject s0 Hs0).
    replace ey with (s0 + (e' + ex))%Z by lia. rewrite (pow2_add s0). ring. }
  unfold close. rewrite <- E1, <- E2. exact Hq.
Qed.

(** A normal product [m * 2^e] is close to the exact product. *)
Lemma SFmul_normal_close s1 m1 e1 s2 m2 e2 s m e :
  SFmul prec emax (S754_finite s1 m1 e1) (S754_finite s2 m2 e2) = S754_finite s m e ->
  Zpos (digits2_pos m) = prec ->
  s = xorb s1 s2 /\
  close (inject_Z (Zpos m) * pow2 e)
        (inject_Z (Zpos m1) * pow2 e1 * (inject_Z (Zpos m2) * pow2 e2)).
Proof.
  unfold SFmul. intros Hres Hdig.
  assert (Hloc : located (Zpos (m1 * m2)) loc_Exact (Zpos (m1 * m2)) 1).
  { unfold located, locates. simpl. lia. }
  destruct (binary_round_aux_normal _ _ _ _ _ _ _ _ _ Hloc Hres Hdig)
    as (Hs & k & Hk & He & Hb).
  split; [exact Hs|].
  pose proof (scaled_bound _ _ (pow2 (e1 + e2)) (pow2_pos _) Hb) as Hq.
  assert (E1 : inject_Z (Zpos m * 2 ^ k * 1) * pow2 (e1 + e2)
               == inject_Z (Zpos m) * pow2 e).
  { rewrite !inject_Z_mult, (pow2_inject k Hk), He, !pow2_add.
    change (inject_Z 1) with 1. ring. }
  assert (E2 : inject_Z (Zpos (m1 * m2)) * pow2 (e1 + e2)
               == inject_Z (Zpos m1) * pow2 e1 * (inject_Z (Zpos m2) * pow2 e2)).
  { rewrite Pos2Z.inj_mul, inject_Z_mult, pow2_add. ring. }
  unfold close. rewrite <- E1, <- E2. exact Hq.
Qed.

Lemma Qmult_le_compat_nonneg (a b c d : Q) :
  0 <= a -> a <= b -> 0 <= c -> c <= d -> a * c <= b * d.
Proof.
  intros Ha Hab Hc Hcd.
  apply Qle_trans with (b * c).
  - apply Qmult_le_compat_r; assumption.
  - rewrite !(Qmult_comm b). apply Qmult_le_compat_r; [assumption|].
    now apply Qle_trans with a.
Qed.

(** The tolerance of the round trip: [2^-50], four units in the last
    place of 1.0 *)
Definition tolerance : Q := 1 # 1125899906842624.

(** Two quotients that are close to [y / x] and [x / y]: their exact
    product [u] is close to 1, [(c - 1)^2 u <= c^2 <= (c + 1)^2 u] for
    [c = 2^53]. *)
Lemma cross_product_bounds (X Y Q1 Q2 : Q) :
  0 < X -> 0 < Y -> 0 < Q1 -> 0 < Q2 ->
  close (Q1 * X) Y -> close (Q2 * Y) X ->
  9007199254740991 * 9007199254740991 * (Q1 * Q2)
    <= 9007199254740992 * 9007199254740992
  /\ 9007199254740992 * 9007199254740992
    <= 9007199254740993 * 9007199254740993 * (Q1 * Q2).
Proof.
  unfold close. change (inject_Z (2 ^ 53)) with (9007199254740992 # 1).
  intros HX HY H1 H2 [A1 A2] [B1 B2].
  assert (HXY : 0 < X * Y) by (apply Qmult_lt_0_compat; assumption).
  assert (L1 : 9007199254740991 * (Q1 * X) <= 9007199254740992 * Y) by lra.
  assert (L2 : 9007199254740991 * (Q2 * Y) <= 9007199254740992 * X) by lra.
  assert (U1 : 9007199254740992 * Y <= 9007199254740993 * (Q1 * X)) by lra.
  assert (U2 : 9007199254740992 * X <= 9007199254740993 * (Q2 * Y)) by lra.
  assert (PQ1X : 0 < Q1 * X) by (apply Qmult_lt_0_compat; assumption).
  assert (PQ2Y : 0 < Q2 * Y) by (apply Qmult_lt_0_compat; assumption).
  split.
  - apply (Qmult_le_r _ _ (X * Y) HXY).
    assert (N1 : 0 <= 9007199254740991 * (Q1 * X)) by lra.
    assert (N2 : 0 <= 9007199254740991 * (Q2 * Y)) by lra.
    eapply Qle_trans; [|eapply Qle_trans;
      [apply (Qmult_le_compat_nonneg _ _ _ _ N1 L1 N2 L2)|]];
      apply Qle_lteq; right; ring.
  - apply (Qmult_le_r _ _ (X * Y) HXY).
    assert (N1 : 0 <= 9007199254740992 * Y) by lra.
    assert (N2 : 0 <= 9007199254740992 * X) by lra.
    eapply Qle_trans; [|eapply Qle_trans;
      [apply (Qmult_le_compat_nonneg _ _ _ _ N1 U1 N2 U2)|]];
      apply Qle_lteq; right; ring.
Qed.

(** With a product close to theirs: it is within [2^-50] of 1. *)
Lemma inverse_product_close (X Y Q1 Q2 P : Q) :
  0 < X -> 0 < Y -> 0 < Q1 -> 0 < Q2 -> 0 < P ->
  close (Q1 * X) Y -> close (Q2 * Y) X -> close P (Q1 * Q2) ->
  Qabs (P - 1) <= tolerance.
Proof.
  intros HX HY H1 H2 HP CA CB [C1 C2].
  destruct (cross_product_bounds X Y Q1 Q2 HX HY H1 H2 CA CB) as [L U].
  unfold tolerance. change (inject_Z (2 ^ 53)) with (9007199254740992 # 1) in *.
  set (u := Q1 * Q2) in *. clearbody u.
  apply Qabs_Qle_condition. split; lra.
Qed.

(** The same for an amount carried there and back: two more roundings. *)
Lemma round_trip_product_close (A X Y Q1 Q2 R1 R2 : Q) :
  0 < A -> 0 < X -> 0 < Y -> 0 < Q1 -> 0 < Q2 -> 0 < R1 -> 0 < R2 ->
  close (Q1 * X) Y -> close (Q2 * Y) X ->
  close R1 (A * Q1) -> close R2 (R1 * Q2) ->
  Qabs (R2 - A) <= tolerance * A.
Proof.
  intros HA HX HY H1 H2 HR1 HR2 CA CB [C1 C2] [D1 D2].
  destruct (cross_product_bounds X Y Q1 Q2 HX HY H1 H2 CA CB) as [L U].
  unfold tolerance. change (inject_Z (2 ^ 53)) with (9007199254740992 # 1) in *.
  set (u := Q1 * Q2) in *.
  (* scale the bounds on [u] by [A], and those on [R1] by [Q2] *)
  assert (LA : 9007199254740991 * 9007199254740991 * (A * u)
               <= 9007199254740992 * 9007199254740992 * A).
  { apply (Qmult_le_compat_r _ _ A) in L; [|lra].
    eapply Qle_trans; [|eapply Qle_trans; [exact L|]]; apply Qle_lteq; right; ring. }
  assert (UA : 9007199254740992 * 9007199254740992 * A
               <= 9007199254740993 * 9007199254740993 * (A * u)).
  { apply (Qmult_le_compat_r _ _ A) in U; [|lra].
    eapply Qle_trans; [|eapply Qle_trans; [exact U|]]; apply Qle_lteq; right; ring. }
  assert (LR : 9007199254740991 * (R1 * Q2) <= 9007199254740992 * (A * u)).
  { assert (E : 9007199254740991 * R1 <= 9007199254740992 * (A * Q1)) by lra.
    apply (Qmult_le_compat_r _ _ Q2) in E; [|lra].
    eapply Qle_trans; [|eapply Qle_trans; [exact E|]]; apply Qle_lteq; right;
      unfold u; ring. }
  assert (UR : 9007199254740992 * (A * u) <= 9007199254740993 * (R1 * Q2)).
  { assert (E : 9007199254740992 * (A * Q1) <= 9007199254740993 * R1) by lra.
    apply (Qmult_le_compat_r _ _ Q2) in E; [|lra].
    eapply Qle_trans; [|eapply Qle_trans; [exact E|]]; apply Qle_lteq; right;
      unfold u; ring. }
  set (w := A * u) in *. set (t := R1 * Q2) in *.
  clearbody w t u.
  apply Qabs_Qle_condition. split; lra.
Qed.

(** *** The primitive operations *)

Definition mag (x : float) : Q := magnitude (Prim2SF x).

Definition negative (x : float) : bool :=
  match Prim2SF x with
  | S754_finite s _ _ => s
  | _ => false
  end.

Lemma value_mag (x : float) :
  float_value x = if negative x then - mag x else mag x.
Proof.
  unfold float_value, mag, negative, SF2Q.
  destruct (Prim2SF x) as [| | |[|] m e]; reflexivity.
Qed.

Lemma magnitude_finite_pos s m e : 0 < magnitude (S754_finite s m e).
Proof.
  simpl. apply Qmult_lt_0_compat; [reflexivity | apply pow2_pos].
Qed.

Lemma normal_finite (x : float) :
  is_normal x = true ->
  exists s m e, Prim2SF x = S754_finite s m e /\ Zpos (digits2_pos m) = prec.
Proof.
  unfold is_normal. rewrite classify_spec. unfold SF64classify, SFclassify.
  destruct (Prim2SF x) as [[|]|[|]| |[|] m e]; try discriminate.
  - destruct (Z.eqb_spec (Zpos (digits2_pos m)) prec); [|discriminate]. eauto.
  - destruct (Z.eqb_spec (Zpos (digits2_pos m)) prec); [|discriminate]. eauto.
Qed.

(** A normal quotient: both operands are finite and non-zero, and the
    quotient times the divisor is close to the dividend. *)
Lemma div_normal_close (y x : float) :
  is_normal (y / x) = true ->
  0 < mag x /\ 0 < mag y /\ 0 < mag (y / x)
  /\ negative (y / x) = xorb (negative y) (negative x)
  /\ close (mag (y / x) * mag x) (mag y).
Proof.
  intros Hn. destruct (normal_finite _ Hn) as (s & m & e & Hq & Hdig).
  unfold mag, negative. rewrite Hq. rewrite div_spec in Hq. unfold SF64div in Hq.
  destruct (Prim2SF y) as [sy|sy| |sy my ey]; destruct (Prim2SF x) as [sx|sx| |sx mx ex];
    try discriminate.
  destruct (SFdiv_normal_close _ _ _ _ _ _ _ _ _ Hq Hdig) as [-> Hc].
  repeat split; try apply magnitude_finite_pos; apply Hc.
Qed.

(** A normal product: both factors are finite and non-zero, and the
    product is close to the exact one. *)
Lemma mul_normal_close (x y : float) :
  is_normal (x * y) = true ->
  0 < mag x /\ 0 < mag y /\ 0 < mag (x * y)
  /\ negative (x * y) = xorb (negative x) (negative y)
  /\ close (mag (x * y)) (mag x * mag y).
Proof.
  intros Hn. destruct (normal_finite _ Hn) as (s & m & e & Hq & Hdig).
  unfold mag, negative. rewrite Hq. rewrite mul_spec in Hq. unfold SF64mul in Hq.
  destruct (Prim2SF x) as [sx|sx| |sx mx ex]; destruct (Prim2SF y) as [sy|sy| |sy my ey];
    try discriminate.
  destruct (SFmul_normal_close _ _ _ _ _ _ _ _ _ Hq Hdig) as [-> Hc].
  repeat split; try apply magnitude_finite_pos; apply Hc.
Qed.

Lemma round_trip_close (amt ra rb : float) :
  is_normal (rb / ra) = true ->
  is_normal (ra / rb) = true ->
  is_normal (amt * (rb / ra)) = true ->
  is_normal (amt * (rb / ra) * (ra / rb)) = true ->
  Qabs (float_value (amt * (rb / ra) * (ra / rb)) - float_value amt)
  <= tolerance * Qabs (float_value amt).
Proof.
  intros H1 H2 H3 H4.
  destruct (div_normal_close _ _ H1) as (Xa & Xb & Q1 & S1 & C1).
  destruct (div_normal_close _ _ H2) as (_ & _ & Q2 & S2 & C2).
  destruct (mul_normal_close _ _ H3) as (A & _ & R1 & S3 & C3).
  destruct (mul_normal_close _ _ H4) as (_ & _ & R2 & S4 & C4).
  pose proof (round_trip_product_close _ _ _ _ _ _ _ A Xa Xb Q1 Q2 R1 R2 C1 C2 C3 C4)
    as Hb.
  rewrite !value_mag, S4, S3, S1, S2.
  replace (xorb (xorb (negative amt) (xorb (negative rb) (negative ra)))
             (xorb (negative ra) (negative rb)))
    with (negative amt)
    by (destruct (negative amt), (negative ra), (negative rb); reflexivity).
  destruct (negative amt).
  - assert (E : - mag (amt * (rb / ra) * (ra / rb)) - - mag amt
                 == - (mag (amt * (rb / ra) * (ra / rb)) - mag amt)) by ring.
    rewrite E, !Qabs_opp, (Qabs_pos (mag amt)) by now apply Qlt_le_weak.
    exact Hb.
  - rewrite (Qabs_pos (mag amt)) by now apply Qlt_le_weak. exact Hb.
Qed.

Lemma pow2_lt_inv a b : pow2 a < pow2 b -> (a < b)%Z.
Proof. intros H. apply (Qpower_lt_compat_l_inv 2); [exact H | reflexivity]. Qed.

(** The exponent of the leading bit of [M * 2^E], from bounds on its
    value *)
Lemma leading_bit_range (M : positive) (E lo hi : Z) :
  pow2 lo < inject_Z (Zpos M) * pow2 E ->
  inject_Z (Zpos M) * pow2 E < pow2 hi ->
  (lo < Zpos (digits2_pos M) + E <= hi)%Z.
Proof.
  intros Hlo Hhi. destruct (digits2_pos_bounds M) as [Dl Du].
  set (dM := Zpos (digits2_pos M)) in *.
  assert (HdM : (0 < dM)%Z) by (unfold dM; lia).
  apply Z.lt_le_incl in Du.
  rewrite Zle_Qle in Dl, Du.
  rewrite pow2_inject in Dl, Du by lia.
  assert (HE := pow2_pos E).
  apply (Qmult_le_compat_r _ _ (pow2 E)) in Dl; [|now apply Qlt_le_weak].
  apply (Qmult_le_compat_r _ _ (pow2 E)) in Du; [|now apply Qlt_le_weak].
  rewrite <- pow2_add in Dl, Du.
  split.
  - apply pow2_lt_inv. eapply Qlt_le_trans; [exact Hlo | exact Du].
  - assert (dM - 1 + E < hi)%Z; [|lia].
    apply pow2_lt_inv. eapply Qle_lt_trans; [exact Dl | exact Hhi].
Qed.

(** Two normal numbers whose exact product lies between [1/2] and [2]
    have a normal product. *)
Lemma mul_near_one_normal (x y : float) :
  is_normal x = true -> is_normal y = true ->
  pow2 (-1) < mag x * mag y -> mag x * mag y < pow2 1 ->
  is_normal (x * y) = true.
Proof.
  intros Hx Hy Hlo Hhi.
  destruct (normal_finite _ Hx) as (sx & mx & ex & Ex & Dx).
  destruct (normal_finite _ Hy) as (sy & my & ey & Ey & Dy).
  unfold mag in Hlo, Hhi. rewrite Ex, Ey in Hlo, Hhi. simpl magnitude in Hlo, Hhi.
  assert (Eu : inject_Z (Zpos mx) * pow2 ex * (inject_Z (Zpos my) * pow2 ey)
               == inject_Z (Zpos (mx * my)) * pow2 (ex + ey)).
  { rewrite Pos2Z.inj_mul, inject_Z_mult, pow2_add. ring. }
  rewrite Eu in Hlo, Hhi.
  pose proof (leading_bit_range _ _ _ _ Hlo Hhi) as Hr.
  assert (Hbig : (prec < Zpos (digits2_pos (mx * my)))%Z).
  { destruct (digits2_pos_bounds mx) as [Lx _]. destruct (digits2_pos_bounds my) as [Ly _].
    destruct (digits2_pos_bounds (mx * my)) as [_ Um].
    rewrite Dx in Lx. rewrite Dy in Ly.
    change (2 ^ (prec - 1))%Z with 4503599627370496%Z in Lx, Ly.
    assert (H104 : (2 ^ 104 < 2 ^ Zpos (digits2_pos (mx * my)))%Z).
    { change (2 ^ 104)%Z with (4503599627370496 * 4503599627370496)%Z.
      rewrite Pos2Z.inj_mul in Um. nia. }
    apply Z.pow_lt_mono_r_iff in H104; unfold prec; lia. }
  destruct (binary_round_aux_exact_normal (xorb sx sy) (mx * my) (ex + ey) Hbig
              ltac:(lia)) as (m & e & Hres & Hdig).
  unfold is_normal. rewrite classify_spec, mul_spec, Ex, Ey.
  unfold SF64classify, SF64mul, SFmul, SFclassify. rewrite Hres.
  apply Z.eqb_eq in Hdig. rewrite Hdig. now destruct (xorb sx sy).
Qed.

(** The product of the two cross-rates is a normal number whenever they
    are. *)
Lemma inverse_rates_normal (ra rb : float) :
  is_normal (rb / ra) = true ->
  is_normal (ra / rb) = true ->
  is_normal ((rb / ra) * (ra / rb)) = true.
Proof.
  intros H1 H2.
  destruct (div_normal_close _ _ H1) as (Xa & Xb & Q1 & _ & C1).
  destruct (div_normal_close _ _ H2) as (_ & _ & Q2 & _ & C2).
  destruct (cross_product_bounds _ _ _ _ Xa Xb Q1 Q2 C1 C2) as [L U].
  apply mul_near_one_normal; try assumption.
  - change (pow2 (-1)) with (1 # 2). lra.
  - change (pow2 1) with (2 # 1). lra.
Qed.

(** The two cross-rates of a pair of rates multiply to 1, within the
    tolerance, when neither division leaves the normal range. *)
Lemma inverse_rates_close (ra rb : float) :
  is_normal (rb / ra) = true ->
  is_normal (ra / rb) = true ->
  Qabs (float_value ((rb / ra) * (ra / rb)) - 1) <= tolerance.
Proof.
  intros H1 H2. pose proof (inverse_rates_normal _ _ H1 H2) as H3.
  destruct (div_normal_close _ _ H1) as (Xa & Xb & Q1 & S1 & C1).
  destruct (div_normal_close _ _ H2) as (_ & _ & Q2 & S2 & C2).
  destruct (mul_normal_close _ _ H3) as (_ & _ & P & S3 & C3).
  rewrite value_mag, S3, S1, S2.
  replace (xorb (xorb (negative rb) (negative ra)) (xorb (negative ra) (negative rb)))
    with false by (destruct (negative ra), (negative rb); reflexivity).
  now apply (inverse_product_close (mag ra) (mag rb) (mag (rb / ra)) (mag (ra / rb))).
Qed.

(** A normal quotient has a non-zero divisor. *)
Lemma normal_quotient_divisor (y x : float) :
  is_normal (y / x) = true -> PrimFloat.eqb x 0 = false.
Proof.
  intros H. destruct (div_normal_close _ _ H) as (Hx & _).
  rewrite FloatAxioms.eqb_spec. unfold mag in Hx.
  change (Prim2SF 0) with (S754_zero false).
  destruct (Prim2SF x) as [s|s| |[|] m e]; try reflexivity;
    exfalso; revert Hx; apply Qlt_irrefl.
Qed.

(** An amount of zero stays zero. *)
Lemma round_trip_zero (amt ra rb : float) :
  is_normal (rb / ra) = true ->
  is_normal (ra / rb) = true ->
  PrimFloat.eqb amt 0 = true ->
  float_value (amt * (rb / ra) * (ra / rb)) == 0.
Proof.
  intros H1 H2 Hz.
  destruct (normal_finite _ H1) as (s1 & m1 & e1 & E1 & _).
  destruct (normal_finite _ H2) as (s2 & m2 & e2 & E2 & _).
  rewrite FloatAxioms.eqb_spec in Hz. change (Prim2SF 0) with (S754_zero false) in Hz.
  unfold float_value. rewrite mul_spec, mul_spec, E1, E2.
  destruct (Prim2SF amt) as [s|[|]| |[|] m e]; try discriminate; reflexivity.
Qed.

End Rounding.

(** ** What the specification says, in the model's terms *)

Definition SourceUnavailable : exn :=
  RuntimeError "Could not download rates from both sources. Check internet access.".

(** The URL pattern [{root}/{code}.json], the code lower-cased *)
Definition endpoint (root base_code : string) : string :=
  root ++ "/" ++ lower base_code ++ ".json".

(** The world after one more request *)
Definition logged (url : string) (w : World) : World :=
  {| cache := cache w; requests := (requests w ++ [url])%list |}.

(** The world after the cache slot is overwritten *)
Definition stored (c : Cache) (w : World) : World :=
  {| cache := c; requests := requests w |}.

(** The two expected fields of a response: its ["date"] and the field
    named after the base code.  [None] when the response is not an object
    or lacks either. *)
Definition fields (base : string) (data : value) : option (value * value) :=
  match data with
  | VDict d =>
      match d !! "date", d !! base with
      | Some dt, Some r => Some (dt, r)
      | _, _ => None
      end
  | _ => None
  end.

Section Specification.

Variable http_get : list string -> string -> option value.
Variable repr_other : value -> string.

(** One attempt, as the specification describes it: the request fails,
    or its response lacks a field, or it yields [(date, rates)]. *)
Definition attempt (w : World) (root base_code : string) : option (value * value) :=
  match http_get (requests w) (endpoint root base_code) with
  | Some data => fields (lower base_code) data
  | None => None
  end.

(** [fetchBaseRates] of the specification: primary first, fallback on a
    failed attempt, [SourceUnavailable] when both fail. *)
Definition fetchBaseRates (base_code : string) : M (value * value) := fun w =>
  let w1 := logged (endpoint PRIMARY_BASE base_code) w in
  match attempt w PRIMARY_BASE base_code with
  | Some out => (Ok out, w1)
  | None =>
      let w2 := logged (endpoint FALLBACK_BASE base_code) w1 in
      match attempt w1 FALLBACK_BASE base_code with
      | Some out => (Ok out, w2)
      | None => (Raise SourceUnavailable, w2)
      end
  end.

(** The cache test of [getUsdRates]: a table is present, and its age is
    below the TTL. *)
Definition present (c : Cache) : bool := truthy (rates c).

Definition age_below_ttl (now : float) (c : Cache) : bool :=
  PrimFloat.ltb (now - ts c) CACHE_TTL_SECS.

(** A new fetch of base ["usd"]: on success the whole slot is overwritten
    with the result and the current timestamp; a failure propagates and
    leaves the slot alone. *)
Definition refresh (now : float) : M (value * value) := fun w =>
  match fetchBaseRates "usd" w with
  | (Ok (d, r), w') => (Ok (d, r), stored {| ts := now; date := d; rates := r |} w')
  | (Raise e, w') => (Raise e, w')
  end.

(** [getUsdRates] of the specification *)
Definition getUsdRates (forceRefresh : bool) (now : float) : M (value * value) :=
  fun w =>
  if negb forceRefresh && present (cache w) && age_below_ttl now (cache w)
  then (Ok (date (cache w), rates (cache w)), w)
  else refresh now w.

(** The codes [availableCodes] works with: the fetched codes, upper-cased
    as they are displayed, and ["USD"]. *)
Definition codes_of (d : gmap string value) : gset string :=
  set_map upper (dom d) ∪ {["USD"]}.

(** A code as [convert] looks it up, and as it displays it *)
Definition normalize (code : option string) : string :=
  lower (strip (or_empty code)).

Definition shown (code : option string) : string := upper (or_empty code).

(** Step 4 of [convert]: 1.0 for ["usd"], else the table's entry, [None]
    when absent. *)
Definition resolve (usd : gmap string value) (code : string) : value :=
  if String.eqb code "usd" then VFloat 1 else default VNone (usd !! code).

(** The outcomes of [convert], as the pair [(result, info)] it returns *)
Definition InvalidAmount : string * string :=
  ("", "Invalid amount (must be a number).").

Definition NegativeAmount : string * string :=
  ("", "Amount must be non-negative.").

Definition MissingCurrency : string * string :=
  ("", "Please choose both currencies.").

Definition PairUnavailable (from_code to_code : option string) : string * string :=
  ("", "Pair not available: " ++ shown from_code ++ " → " ++ shown to_code).

Definition cross_success (converted rate : float) (from_code to_code : option string)
  (asOf : value) : string * string :=
  (fixed6 true converted ++ " " ++ shown to_code,
   "1 " ++ shown from_code ++ " = " ++ fixed6 false rate ++ " " ++ shown to_code
   ++ "  (last update " ++ py_str repr_other asOf ++ ")").

Definition direct_success (converted rate : float) (from_code to_code : option string)
  (asOf : value) : string * string :=
  (fixed6 true converted ++ " " ++ shown to_code,
   "Rate: 1 " ++ shown from_code ++ " = " ++ fixed6 false rate ++ " " ++ shown to_code
   ++ "  (date " ++ py_str repr_other asOf ++ ")").

(** Step 5 of [convert], given what the direct fetch produced: success
    when it returned a rate map with a usable rate for [b], and
    [PairUnavailable] in every other case (the fetch failed, the code is
    absent, or an exception was swallowed by the handler). *)
Definition direct_outcome (amt : float) (from_code to_code : option string)
  (b : string) (fetched : result (value * value)) : string * string :=
  match fetched with
  | Ok (d_date, VDict d_map) =>
      match d_map !! b with
      | Some direct =>
          match number direct with
          | Ok x => direct_success (amt * x) x from_code to_code d_date
          | Raise _ => PairUnavailable from_code to_code
          end
      | None => PairUnavailable from_code to_code
      end
  | _ => PairUnavailable from_code to_code
  end.

(** *** The fetch ([_fetch_base_rates]) *)

Lemma fields_Some base data dt r :
  fields base data = Some (dt, r) <->
  exists d, data = VDict d /\ d !! "date" = Some dt /\ d !! base = Some r.
Proof.
  split.
  - destruct data as [| | | | | |d]; simpl; try discriminate.
    destruct (d !! "date") as [dt'|] eqn:Hd; [|discriminate].
    destruct (d !! base) as [r'|] eqn:Hb; [|discriminate].
    intros [= <- <-]. exists d. auto.
  - intros (d & -> & Hd & Hb). simpl. now rewrite Hd, Hb.
Qed.

(** What one turn of the loop does: the [try] returns exactly when the
    response is an object with both fields; in every other case it falls
    through, or raises (the request itself, a [TypeError] of [in] or of
    the subscript) and the handler moves on. *)
Lemma fetch_attempt_fields root base w :
  try_except (fetch_attempt http_get root base) (fun _ => ret None) w =
  (Ok match http_get (requests w) (root ++ "/" ++ base ++ ".json") with
      | Some data => fields base data
      | None => None
      end, logged (root ++ "/" ++ base ++ ".json") w).
Proof.
  unfold try_except, fetch_attempt, bind, _try_fetch, lift, ret, logged.
  destruct (http_get (requests w) _) as [data|]; [|reflexivity].
  destruct data as [| | | | s | l | d]; simpl; try reflexivity.
  - destruct (is_substring "date" s); [|reflexivity].
    destruct (is_substring base s); reflexivity.
  - destruct (existsb (equals_str "date") l); [|reflexivity].
    destruct (existsb (equals_str base) l); reflexivity.
  - destruct (d !! "date") as [dt|] eqn:Hd.
    + rewrite bool_decide_eq_true_2 by eauto.
      destruct (d !! base) as [r|] eqn:Hb.
      * rewrite bool_decide_eq_true_2 by eauto. reflexivity.
      * rewrite bool_decide_eq_false_2 by (intros [? ?]; discriminate). reflexivity.
    + rewrite bool_decide_eq_false_2 by (intros [? ?]; discriminate). reflexivity.
Qed.

Lemma fetch_base_rates_refines base_code w :
  _fetch_base_rates http_get base_code w = fetchBaseRates base_code w.
Proof.
  unfold _fetch_base_rates, fetchBaseRates, fetch_from.
  unfold bind at 1. rewrite fetch_attempt_fields.
  unfold attempt, endpoint.
  destruct (http_get (requests w) _) as [data|].
  2:{ unfold bind. rewrite fetch_attempt_fields.
      destruct (http_get _ _) as [data2|]; [|reflexivity].
      destruct (fields _ data2); reflexivity. }
  destruct (fields _ data) as [out|]; [reflexivity|].
  unfold bind. rewrite fetch_attempt_fields.
  simpl requests.
  destruct (http_get _ _) as [data2|]; [|reflexivity].
  destruct (fields _ data2); reflexivity.
Qed.

(** C5.  For every base code, [_fetch_base_rates] requests the primary
    endpoint [{root}/{lower-cased code}.json] first and the fallback
    endpoint with the same path second, and only after the primary attempt
    failed; an attempt whose response lacks ["date"] or the field named
    after the lower-cased code is a failed attempt and not an exception;
    the call returns the [(date, rates)] of the first attempt that has both
    fields, and it raises [SourceUnavailable] exactly when both attempts
    fail. *)
Theorem fetch_base_rates_two_tier (base_code : string) (w : World) :
  let u1 := endpoint PRIMARY_BASE base_code in
  let u2 := endpoint FALLBACK_BASE base_code in
  let first := attempt w PRIMARY_BASE base_code in
  let second := attempt (logged u1 w) FALLBACK_BASE base_code in
  _fetch_base_rates http_get base_code w =
    match first, second with
    | Some out, _ => (Ok out, logged u1 w)
    | None, Some out => (Ok out, logged u2 (logged u1 w))
    | None, None => (Raise SourceUnavailable, logged u2 (logged u1 w))
    end
  /\ ((exists e, fst (_fetch_base_rates http_get base_code w) = Raise e)
      <-> first = None /\ second = None)
  /\ (forall data,
        fields (lower base_code) data = None <->
        forall d, data = VDict d ->
                  d !! "date" = None \/ d !! lower base_code = None).
Proof.
  intros u1 u2 first second.
  assert (E : _fetch_base_rates http_get base_code w =
    match first, second with
    | Some out, _ => (Ok out, logged u1 w)
    | None, Some out => (Ok out, logged u2 (logged u1 w))
    | None, None => (Raise SourceUnavailable, logged u2 (logged u1 w))
    end).
  { rewrite fetch_base_rates_refines. unfold fetchBaseRates.
    fold u1 u2 first second. destruct first, second; reflexivity. }
  split; [exact E|]. split.
  - rewrite E. destruct first, second; simpl; split.
    all: try (intros [e He]; discriminate).
    all: try (intros [? ?]; discriminate).
    + intros _. auto.
    + intros _. eexists. reflexivity.
  - intros data. split.
    + intros Hn d ->. simpl in Hn.
      destruct (d !! "date"); [|now left].
      destruct (d !! lower base_code); [discriminate | now right].
    + intros H. destruct data as [| | | | | |d]; try reflexivity.
      simpl. destruct (H d eq_refl) as [-> | Hb]; [reflexivity|].
      rewrite Hb. now destruct (d !! "date").
Qed.

(** The fetch only ever adds to the request log. *)
Lemma fetch_base_rates_cache base_code w :
  cache (snd (_fetch_base_rates http_get base_code w)) = cache w.
Proof.
  rewrite fetch_base_rates_refines. unfold fetchBaseRates.
  destruct (attempt w _ _); [reflexivity|].
  destruct (attempt _ _ _); reflexivity.
Qed.

Lemma fetch_base_rates_requests base_code w :
  exists more,
    requests (snd (_fetch_base_rates http_get base_code w)) =
    (requests w ++ endpoint PRIMARY_BASE base_code :: more)%list.
Proof.
  rewrite fetch_base_rates_refines. unfold fetchBaseRates.
  destruct (attempt w _ _); [exists []; reflexivity|].
  exists [endpoint FALLBACK_BASE base_code].
  destruct (attempt _ _ _); simpl; now rewrite <- app_assoc.
Qed.

(** *** The cache ([_get_usd_rates]) *)

Lemma get_usd_rates_refines force_refresh now w :
  _get_usd_rates http_get force_refresh now w = getUsdRates force_refresh now w.
Proof.
  unfold _get_usd_rates, getUsdRates, present, age_below_ttl, refresh.
  destruct (negb force_refresh && truthy (rates (cache w)) && _); [reflexivity|].
  unfold bind. rewrite fetch_base_rates_refines.
  destruct (fetchBaseRates "usd" w) as [[[d r]|e] w']; reflexivity.
Qed.

Lemma get_usd_rates_hit now w :
  present (cache w) = true ->
  age_below_ttl now (cache w) = true ->
  _get_usd_rates http_get false now w = (Ok (date (cache w), rates (cache w)), w).
Proof.
  intros Hp Ha. rewrite get_usd_rates_refines. unfold getUsdRates.
  now rewrite Hp, Ha.
Qed.

Lemma get_usd_rates_miss force_refresh now w :
  force_refresh = true \/ present (cache w) = false
  \/ age_below_ttl now (cache w) = false ->
  _get_usd_rates http_get force_refresh now w = refresh now w.
Proof.
  intros H. rewrite get_usd_rates_refines. unfold getUsdRates.
  destruct H as [-> | [-> | ->]]; simpl; [reflexivity| |].
  - now rewrite andb_false_r.
  - now rewrite andb_false_r.
Qed.

(** C3 (amended).  Take a [getUsdRates] call at time [t1] that fetched
    (it was forced, or found no table, or found a stale one) and succeeded
    with a rate table that counts as present (non-empty).  Then a
    [getUsdRates(false)] call at a time [t2] with [t2 - t1 < 300] returns
    the cached [(date, rates)] and leaves the world as it is: no request is
    made, so the two calls make exactly one fetch.  A call after the TTL
    expired, any call with [forceRefresh], and any call on a cache without
    a table, is a new fetch of base ["usd"] that, when it succeeds,
    overwrites the whole slot with the result and the current timestamp. *)
Theorem get_usd_rates_ttl :
  (forall force_refresh t1 t2 w0 d r w1,
      force_refresh = true \/ present (cache w0) = false
      \/ age_below_ttl t1 (cache w0) = false ->
      _get_usd_rates http_get force_refresh t1 w0 = (Ok (d, r), w1) ->
      truthy r = true ->
      PrimFloat.ltb (t2 - t1) CACHE_TTL_SECS = true ->
      _get_usd_rates http_get false t2 w1 = (Ok (d, r), w1))
  /\ (forall force_refresh now w,
      force_refresh = true \/ present (cache w) = false
      \/ age_below_ttl now (cache w) = false ->
      _get_usd_rates http_get force_refresh now w =
      match _fetch_base_rates http_get "usd" w with
      | (Ok (d, r), w') =>
          (Ok (d, r), {| cache := {| ts := now; date := d; rates := r |};
                         requests := requests w' |})
      | (Raise e, w') => (Raise e, w')
      end).
Proof.
  split.
  - intros force_refresh t1 t2 w0 d r w1 Hmiss Hr Ht Hage.
    rewrite (get_usd_rates_miss _ _ _ Hmiss) in Hr. unfold refresh in Hr.
    destruct (fetchBaseRates "usd" w0) as [[[d' r']|e] w'] eqn:Hf; [|discriminate].
    injection Hr as <- <- <-.
    rewrite get_usd_rates_hit; [reflexivity| exact Ht | exact Hage].
  - intros force_refresh now w H.
    rewrite (get_usd_rates_miss _ _ _ H). unfold refresh.
    rewrite fetch_base_rates_refines.
    destruct (fetchBaseRates "usd" w) as [[[d r]|e] w']; reflexivity.
Qed.

(** *** The code list ([available_codes]) *)

Lemma ascii_compare_trans_lt a b c :
  Ascii.compare a b = Lt -> Ascii.compare b c = Lt -> Ascii.compare a c = Lt.
Proof.
  unfold Ascii.compare. rewrite !N.compare_lt_iff. lia.
Qed.

Lemma string_compare_lt_trans s t u :
  String.compare s t = Lt -> String.compare t u = Lt -> String.compare s u = Lt.
Proof.
  revert t u. induction s as [|a s IH]; intros [|b t] [|c u]; simpl;
    try discriminate; try reflexivity.
  destruct (Ascii.compare a b) eqn:Hab; try discriminate.
  - apply Ascii.compare_eq_iff in Hab as ->.
    destruct (Ascii.compare b c); try discriminate; eauto.
  - intros _. destruct (Ascii.compare b c) eqn:Hbc; try discriminate.
    + apply Ascii.compare_eq_iff in Hbc as <-. now rewrite Hab.
    + intros _. now rewrite (ascii_compare_trans_lt _ _ _ Hab Hbc).
Qed.

#[local] Instance str_le_trans : Transitive str_le.
Proof.
  intros s t u. unfold str_le, String.leb.
  destruct (String.compare s t) eqn:Hst; try discriminate.
  - apply String.compare_eq_iff in Hst as ->. auto.
  - intros _. destruct (String.compare t u) eqn:Htu; try discriminate.
    + apply String.compare_eq_iff in Htu as <-. now rewrite Hst.
    + now rewrite (string_compare_lt_trans _ _ _ Hst Htu).
Qed.

#[local] Instance str_le_total : Total str_le.
Proof. intros s t. apply String.leb_total. Qed.

Lemma codes_of_keys (d : gmap string value) :
  list_to_set (map upper (elements (dom d))) ∪ {["USD"]} = codes_of d.
Proof. reflexivity. Qed.

Lemma elem_of_codes_of (d : gmap string value) (c : string) :
  c ∈ codes_of d <-> c = "USD" \/ exists k, is_Some (d !! k) /\ c = upper k.
Proof.
  unfold codes_of. rewrite elem_of_union, elem_of_map, elem_of_singleton.
  split.
  - intros [(k & -> & Hk) | ->]; [right | now left].
    exists k. split; [now apply elem_of_dom | reflexivity].
  - intros [-> | (k & Hk & ->)]; [now right | left].
    exists k. split; [reflexivity | now apply elem_of_dom].
Qed.

(** The part of the list after the popular prefix *)
Lemma rest_sorted (codes : gset string) :
  let rest := merge_sort str_le (filter (fun c => c ∉ popular) (elements codes)) in
  StronglySorted str_le rest /\ NoDup rest
  /\ forall c, c ∈ rest <-> c ∈ codes /\ c ∉ popular.
Proof.
  intros rest.
  assert (P : rest ≡ₚ filter (fun c => c ∉ popular) (elements codes))
    by apply merge_sort_Permutation.
  split; [apply StronglySorted_merge_sort; apply _|].
  split.
  - rewrite P. apply NoDup_filter, NoDup_elements.
  - intros c. rewrite P, list_elem_of_filter, elem_of_elements. tauto.
Qed.

(** C7.  [available_codes] always fetches base ["usd"] anew, whatever the
    cache holds, and stores the result; it returns the fetched codes
    (upper-cased, as displayed) together with ["USD"], the popular codes
    first, in their fixed order and only those present, and then all the
    other codes in lexicographic order, each once.  A failed fetch
    propagates. *)
Theorem available_codes_order (now : float) (w : World) :
  (forall dt (d : gmap string value) w',
      _fetch_base_rates http_get "usd" w = (Ok (dt, VDict d), w') ->
      exists rest : list string,
        available_codes http_get now w =
          (Ok (filter (fun c => c ∈ codes_of d) popular ++ rest)%list,
           stored {| ts := now; date := dt; rates := VDict d |} w')
        /\ StronglySorted str_le rest /\ NoDup rest
        /\ (forall c, c ∈ rest <-> c ∈ codes_of d /\ c ∉ popular)
        /\ (forall c, c ∈ codes_of d <->
                      c = "USD" \/ exists k, is_Some (d !! k) /\ c = upper k))
  /\ (forall e w',
      _fetch_base_rates http_get "usd" w = (Raise e, w') ->
      available_codes http_get now w = (Raise e, w')).
Proof.
  split.
  - intros dt d w' Hf.
    exists (merge_sort str_le (filter (fun c => c ∉ popular) (elements (codes_of d)))).
    split.
    + unfold available_codes, bind.
      rewrite get_usd_rates_miss by now left.
      unfold refresh. rewrite <- fetch_base_rates_refines, Hf.
      simpl. rewrite codes_of_keys. reflexivity.
    + destruct (rest_sorted (codes_of d)) as (Hs & Hn & Hm).
      split; [exact Hs|]. split; [exact Hn|]. split; [exact Hm|].
      intros c. apply elem_of_codes_of.
  - intros e w' Hf. unfold available_codes, bind.
    rewrite get_usd_rates_miss by now left.
    unfold refresh. now rewrite <- fetch_base_rates_refines, Hf.
Qed.

(** *** The conversion ([convert]) *)

Lemma is_empty_false (s : string) : is_empty s = false <-> s <> "".
Proof.
  destruct s; simpl; split; intros H; try discriminate; try reflexivity.
  now contradiction H.
Qed.

(** [0 <= x] rules out [x < 0]. *)
Lemma nonneg_not_lt (x : float) :
  PrimFloat.leb 0 x = true -> PrimFloat.ltb x 0 = false.
Proof.
  rewrite leb_spec, ltb_spec.
  change (Prim2SF 0) with (S754_zero false).
  destruct (Prim2SF x) as [s|s| |s m e]; try destruct s; cbv; congruence.
Qed.

Lemma py_truediv_floats (x y : float) :
  PrimFloat.eqb y 0 = false -> py_truediv (VFloat x) (VFloat y) = Ok (x / y)%float.
Proof. intros H. unfold py_truediv. simpl. now rewrite H. Qed.

(** Past the validation, [convert] is steps 3 to 6. *)
Lemma convert_validated amount from_code to_code now w amt :
  py_float amount = Ok amt ->
  PrimFloat.ltb amt 0 = false ->
  normalize from_code <> "" ->
  normalize to_code <> "" ->
  convert http_get repr_other amount from_code to_code now w =
  match _get_usd_rates http_get false now w with
  | (Raise e, w1) => (Raise e, w1)
  | (Ok (dt, usd), w1) =>
      let a := normalize from_code in
      let b := normalize to_code in
      match (if String.eqb a "usd" then Ok (VFloat 1) else py_get usd a) with
      | Raise e => (Raise e, w1)
      | Ok r_from =>
          match (if String.eqb b "usd" then Ok (VFloat 1) else py_get usd b) with
          | Raise e => (Raise e, w1)
          | Ok r_to =>
              if is_None r_from || is_None r_to then
                (Ok (direct_outcome amt from_code to_code b
                       (fst (_fetch_base_rates http_get a w1))),
                 snd (_fetch_base_rates http_get a w1))
              else
                match py_truediv r_to r_from with
                | Ok rate =>
                    (Ok (cross_success (amt * rate) rate from_code to_code dt), w1)
                | Raise e => (Raise e, w1)
                end
          end
      end
  end.
Proof.
  intros Hf Hneg Ha Hb. unfold convert. rewrite Hf, Hneg.
  fold (normalize from_code) (normalize to_code).
  apply is_empty_false in Ha, Hb. rewrite Ha, Hb. cbn [orb].
  unfold bind at 1.
  destruct (_get_usd_rates http_get false now w) as [[[dt usd]|e] w1]; [|reflexivity].
  cbv zeta.
  unfold bind at 1.
  assert (L : forall c, (if String.eqb c "usd" then ret (VFloat 1) else lift (py_get usd c)) w1
              = ((if String.eqb c "usd" then Ok (VFloat 1) else py_get usd c), w1)).
  { intros c. now destruct (String.eqb c "usd"). }
  rewrite L. destruct (if String.eqb (normalize from_code) "usd" then _ else _) as [r_from|e];
    [|reflexivity].
  unfold bind at 1. rewrite L.
  destruct (if String.eqb (normalize to_code) "usd" then _ else _) as [r_to|e];
    [|reflexivity].
  destruct (is_None r_from || is_None r_to).
  - unfold bind at 1, try_except, direct_attempt. unfold bind at 1.
    destruct (_fetch_base_rates http_get (normalize from_code) w1)
      as [[[d_date d_map]|e] w2]; [|reflexivity].
    unfold direct_outcome, fst, snd.
    destruct d_map as [| | | | | |m]; try reflexivity.
    unfold bind, lift, py_get, ret.
    destruct (m !! normalize to_code) as [direct|]; [|reflexivity].
    simpl default.
    destruct direct as [|bo|n|x|s|l|m']; try reflexivity.
    change (default VNone (Some (VInt n))) with (VInt n).
    cbn [is_None negb]. unfold py_mul, py_fixed6.
    destruct (number (VInt n)); reflexivity.
  - unfold bind, lift, ret. destruct (py_truediv r_to r_from); reflexivity.
Qed.

Lemma resolve_lookup (usd : gmap string value) (code : string) :
  (if String.eqb code "usd" then Ok (VFloat 1) else py_get (VDict usd) code)
  = Ok (resolve usd code).
Proof. unfold resolve. now destruct (String.eqb code "usd"). Qed.

Lemma resolve_absent (usd : gmap string value) (code : string) :
  code <> "usd" -> usd !! code = None -> resolve usd code = VNone.
Proof.
  intros Hc Hl. unfold resolve. apply String.eqb_neq in Hc. now rewrite Hc, Hl.
Qed.

(** The cross-rate path: both codes resolve and the division is defined. *)
Lemma convert_cross_rate_of amount from_code to_code now w amt dt usd w1 rate :
  py_float amount = Ok amt ->
  PrimFloat.ltb amt 0 = false ->
  normalize from_code <> "" ->
  normalize to_code <> "" ->
  _get_usd_rates http_get false now w = (Ok (dt, VDict usd), w1) ->
  is_None (resolve usd (normalize from_code)) = false ->
  is_None (resolve usd (normalize to_code)) = false ->
  py_truediv (resolve usd (normalize to_code)) (resolve usd (normalize from_code))
    = Ok rate ->
  convert http_get repr_other amount from_code to_code now w =
  (Ok (cross_success (amt * rate) rate from_code to_code dt), w1).
Proof.
  intros Hf Hneg Ha Hb Hg Hrf Hrt Hdiv.
  rewrite (convert_validated _ _ _ _ _ _ Hf Hneg Ha Hb), Hg. cbv zeta.
  rewrite !resolve_lookup, Hrf, Hrt, Hdiv. reflexivity.
Qed.

(** The fallback path: a code does not resolve. *)
Lemma convert_fallback amount from_code to_code now w amt dt usd w1 :
  py_float amount = Ok amt ->
  PrimFloat.ltb amt 0 = false ->
  normalize from_code <> "" ->
  normalize to_code <> "" ->
  _get_usd_rates http_get false now w = (Ok (dt, VDict usd), w1) ->
  resolve usd (normalize from_code) = VNone
  \/ resolve usd (normalize to_code) = VNone ->
  convert http_get repr_other amount from_code to_code now w =
  (Ok (direct_outcome amt from_code to_code (normalize to_code)
         (fst (_fetch_base_rates http_get (normalize from_code) w1))),
   snd (_fetch_base_rates http_get (normalize from_code) w1)).
Proof.
  intros Hf Hneg Ha Hb Hg Hnone.
  rewrite (convert_validated _ _ _ _ _ _ Hf Hneg Ha Hb), Hg. cbv zeta.
  rewrite !resolve_lookup.
  replace (is_None (resolve usd (normalize from_code))
           || is_None (resolve usd (normalize to_code))) with true; [reflexivity|].
  destruct Hnone as [-> | ->]; simpl; [reflexivity | now rewrite orb_true_r].
Qed.

(** An exception of step 3 leaves [convert] as it is. *)
Lemma convert_propagates amount from_code to_code now w amt e w1 :
  py_float amount = Ok amt ->
  PrimFloat.ltb amt 0 = false ->
  normalize from_code <> "" ->
  normalize to_code <> "" ->
  _get_usd_rates http_get false now w = (Raise e, w1) ->
  convert http_get repr_other amount from_code to_code now w = (Raise e, w1).
Proof.
  intros Hf Hneg Ha Hb Hg.
  now rewrite (convert_validated _ _ _ _ _ _ Hf Hneg Ha Hb), Hg.
Qed.

(** C1.  For an amount [>= 0] and two codes whose normalized forms are
    ["usd"] (rate 1.0) or have a rate in the USD table that
    [getUsdRates] returns, [convert] succeeds with
    [rate = rateTo / rateFrom] and [convertedAmount = amount * rate], shown
    with six decimals, and its info carries the date of that table; no
    direct fetch is made. *)
Theorem convert_cross_rate amount from_code to_code now w amt dt usd w1 r_from r_to :
  py_float amount = Ok amt ->
  PrimFloat.leb 0 amt = true ->
  normalize from_code <> "" ->
  normalize to_code <> "" ->
  _get_usd_rates http_get false now w = (Ok (dt, VDict usd), w1) ->
  resolve usd (normalize from_code) = VFloat r_from ->
  resolve usd (normalize to_code) = VFloat r_to ->
  PrimFloat.eqb r_from 0 = false ->
  convert http_get repr_other amount from_code to_code now w =
  (Ok (cross_success (amt * (r_to / r_from)) (r_to / r_from) from_code to_code dt),
   w1).
Proof.
  intros Hf Hpos Ha Hb Hg Hrf Hrt Hnz.
  apply convert_cross_rate_of with (usd := usd); auto using nonneg_not_lt.
  - now rewrite Hrf.
  - now rewrite Hrt.
  - rewrite Hrf, Hrt. now apply py_truediv_floats.
Qed.

(** C4.  When one of the two normalized codes is neither ["usd"] nor in
    the USD table, [convert] makes exactly one direct
    [fetchBaseRates(fromCode)] call, on the world that step 3 left: if it
    succeeds and its rate map has a rate for the target code, [convert]
    succeeds with [amount * directRate], that rate and the date of the
    direct fetch; if the fetch fails or the code is absent, [convert]
    returns [PairUnavailable] naming both codes. *)
Theorem convert_direct_fetch amount from_code to_code now w amt dt usd w1 :
  let a := normalize from_code in
  let b := normalize to_code in
  let fetched := _fetch_base_rates http_get a w1 in
  py_float amount = Ok amt ->
  PrimFloat.leb 0 amt = true ->
  a <> "" -> b <> "" ->
  _get_usd_rates http_get false now w = (Ok (dt, VDict usd), w1) ->
  (a <> "usd" /\ usd !! a = None) \/ (b <> "usd" /\ usd !! b = None) ->
  snd (convert http_get repr_other amount from_code to_code now w) = snd fetched
  /\ (forall d_date d_map direct,
        fst fetched = Ok (d_date, VDict d_map) ->
        d_map !! b = Some (VFloat direct) ->
        fst (convert http_get repr_other amount from_code to_code now w) =
        Ok (direct_success (amt * direct) direct from_code to_code d_date))
  /\ ((exists e, fst fetched = Raise e)
      \/ (exists d_date d_map,
            fst fetched = Ok (d_date, VDict d_map) /\ d_map !! b = None) ->
      fst (convert http_get repr_other amount from_code to_code now w) =
      Ok (PairUnavailable from_code to_code)).
Proof.
  intros a b fetched Hf Hpos Ha Hb Hg Habs.
  assert (E := convert_fallback _ _ _ _ _ _ _ _ _ Hf (nonneg_not_lt _ Hpos) Ha Hb Hg).
  rewrite E.
  2:{ destruct Habs as [[? ?]|[? ?]]; [left|right]; now apply resolve_absent. }
  fold a b fetched. simpl fst; simpl snd.
  split; [reflexivity|]. split.
  - intros d_date d_map direct -> Hl. simpl. now rewrite Hl.
  - intros [[e ->] | (d_date & d_map & -> & Hl)]; simpl; [reflexivity|].
    now rewrite Hl.
Qed.

(** C6.  The checks of [convert] run in this order, and each failure
    returns before the cache is read or any request is made: an amount that
    [float] rejects gives [InvalidAmount], whatever the codes; a number
    below zero gives [NegativeAmount], whatever the codes; then a code that
    is empty after trimming gives [MissingCurrency]. *)
Theorem convert_validation amount from_code to_code now w :
  (forall e, py_float amount = Raise e ->
     convert http_get repr_other amount from_code to_code now w
     = (Ok InvalidAmount, w))
  /\ (forall amt, py_float amount = Ok amt -> PrimFloat.ltb amt 0 = true ->
     convert http_get repr_other amount from_code to_code now w
     = (Ok NegativeAmount, w))
  /\ (forall amt, py_float amount = Ok amt -> PrimFloat.ltb amt 0 = false ->
     strip (or_empty from_code) = "" \/ strip (or_empty to_code) = "" ->
     convert http_get repr_other amount from_code to_code now w
     = (Ok MissingCurrency, w)).
Proof.
  unfold convert. repeat split.
  - intros e ->. reflexivity.
  - intros amt -> ->. reflexivity.
  - intros amt -> -> H.
    replace (is_empty (lower (strip (or_empty from_code)))
             || is_empty (lower (strip (or_empty to_code)))) with true; [reflexivity|].
    destruct H as [-> | ->]; simpl; [reflexivity | now rewrite orb_true_r].
Qed.

(** C9.  On the fallback path the direct fetch never writes the cache
    slot: after the call the slot is the one step 3 left, so it is the slot
    from before the call whenever step 3 was a cache hit; and the request
    for the direct rates is made again by every such call. *)
Theorem direct_fetch_keeps_cache amount from_code to_code now w amt dt usd w1 :
  let a := normalize from_code in
  let b := normalize to_code in
  let after := snd (convert http_get repr_other amount from_code to_code now w) in
  py_float amount = Ok amt ->
  PrimFloat.leb 0 amt = true ->
  a <> "" -> b <> "" ->
  _get_usd_rates http_get false now w = (Ok (dt, VDict usd), w1) ->
  (a <> "usd" /\ usd !! a = None) \/ (b <> "usd" /\ usd !! b = None) ->
  cache after = cache w1
  /\ (present (cache w) = true -> age_below_ttl now (cache w) = true ->
      cache after = cache w)
  /\ exists more,
      requests after = (requests w1 ++ endpoint PRIMARY_BASE a :: more)%list.
Proof.
  intros a b after Hf Hpos Ha Hb Hg Habs. unfold after.
  rewrite (convert_fallback _ _ _ _ _ _ _ _ _ Hf (nonneg_not_lt _ Hpos) Ha Hb Hg).
  2:{ destruct Habs as [[? ?]|[? ?]]; [left|right]; now apply resolve_absent. }
  simpl snd. fold a. split; [apply fetch_base_rates_cache|]. split.
  - intros Hp Hage. rewrite fetch_base_rates_cache.
    rewrite (get_usd_rates_hit _ _ Hp Hage) in Hg. now injection Hg as _ _ <-.
  - apply fetch_base_rates_requests.
Qed.

(** C10.  With a valid amount, a code that is [None] is treated as the
    empty string: [convert] returns [MissingCurrency], raises nothing and
    touches neither the cache nor the network. *)
Theorem convert_none_code amount from_code to_code now w amt :
  py_float amount = Ok amt ->
  PrimFloat.ltb amt 0 = false ->
  from_code = None \/ to_code = None ->
  convert http_get repr_other amount from_code to_code now w
  = (Ok MissingCurrency, w).
Proof.
  intros Hf Hneg H. unfold convert. rewrite Hf, Hneg.
  replace (is_empty (lower (strip (or_empty from_code)))
           || is_empty (lower (strip (or_empty to_code)))) with true; [reflexivity|].
  destruct H as [-> | ->]; simpl; [reflexivity | now rewrite orb_true_r].
Qed.

(** C8 (amended).  Take two codes that resolve, against one table, to
    float rates whose two cross-rates [rB / rA] and [rA / rB] are normal
    binary64 numbers (the divisions neither overflow nor underflow).  These
    quotients are the rates [convert] uses in the two directions, their
    product is within [2^-50] of 1, and an amount carried from A to B and,
    at full precision, back to A returns within [2^-50] of itself,
    relatively, when neither multiplication leaves the normal range; an
    amount of zero returns as zero. *)
Theorem cross_rates_inverse (usd : gmap string value) (a b : string) (ra rb : float) :
  resolve usd a = VFloat ra ->
  resolve usd b = VFloat rb ->
  is_normal (rb / ra) = true ->
  is_normal (ra / rb) = true ->
  py_truediv (resolve usd b) (resolve usd a) = Ok (rb / ra)%float
  /\ py_truediv (resolve usd a) (resolve usd b) = Ok (ra / rb)%float
  /\ (Qabs (float_value ((rb / ra) * (ra / rb)) - 1) <= tolerance)%Q
  /\ forall amt : float,
       (is_normal (amt * (rb / ra)) = true ->
        is_normal (amt * (rb / ra) * (ra / rb)) = true ->
        Qabs (float_value (amt * (rb / ra) * (ra / rb)) - float_value amt)
        <= tolerance * Qabs (float_value amt))%Q
       /\ (PrimFloat.eqb amt 0 = true ->
           float_value (amt * (rb / ra) * (ra / rb)) == 0)%Q.
Proof.
  intros -> -> H1 H2. repeat split.
  - apply py_truediv_floats. exact (normal_quotient_divisor _ _ H1).
  - apply py_truediv_floats. exact (normal_quotient_divisor _ _ H2).
  - now apply inverse_rates_close.
  - now apply round_trip_close.
  - now apply round_trip_zero.
Qed.

End Specification.

(** ** Scenarios

    Concrete networks, caches and calls: the examples of the
    specification, run on the model. *)

(** Dates are strings in every scenario, so [str] never reaches [repr]. *)
Definition no_repr (v : value) : string := "".

(** Both endpoints are down. *)
Definition offline (history : list string) (url : string) : option value := None.

(** The primary endpoint serves [body] at [url]; everything else fails. *)
Definition serving (url : string) (body : value)
  (history : list string) (u : string) : option value :=
  if String.eqb u url then Some body else None.

Definition usd_url : string := endpoint PRIMARY_BASE "usd".

Definition sample_rates : gmap string value :=
  {[ "pkr" := VFloat 278.1; "eur" := VFloat 0.9 ]}.

Definition response (day : string) (base : string) (table : gmap string value) : value :=
  VDict {[ "date" := VStr day; base := VDict table ]}.

(** The module as loaded, before any request *)
Definition cold : World := {| cache := _cache; requests := [] |}.

(** The sample table, cached at time 1000 *)
Definition warm : World :=
  {| cache := {| ts := 1000%float; date := VStr "2024-01-01";
                 rates := VDict sample_rates |};
     requests := [] |}.

(** C1, the example of the specification: with the table
    [{"pkr": 278.1, "eur": 0.9}] of 2024-01-01 in the cache,
    [convert(10, "EUR", "PKR")] has rate [278.1 / 0.9 = 309.0] and result
    [3090.0], and its info names the date; the network is not used. *)
Lemma convert_cross_rate_witness :
  convert offline no_repr (VInt 10) (Some "EUR") (Some "PKR") 1100%float warm
  = (Ok ("3,090.000000 PKR", "1 EUR = 309.000000 PKR  (last update 2024-01-01)"),
     warm)
  /\ (278.1 / 0.9 = 309)%float /\ (10 * (278.1 / 0.9) = 3090)%float.
Proof.
  split; [|split; vm_compute; reflexivity].
  refine (eq_trans
    (convert_cross_rate offline no_repr (VInt 10) (Some "EUR") (Some "PKR")
       1100%float warm 10%float (VStr "2024-01-01") sample_rates warm
       0.9%float 278.1%float _ _ _ _ _ _ _ _) _).
  all: try (vm_compute; reflexivity).
  all: vm_compute; discriminate.
Defined.

(** C2: the failing input.  With an empty cache and both endpoints down,
    [convert(1, "USD", "PKR")] passes the validation, and the
    [RuntimeError] of [_fetch_base_rates] leaves [_get_usd_rates] and
    [convert] uncaught: the call at line 61 stands outside every [try]. *)
Theorem convert_raises_when_offline :
  convert offline no_repr (VInt 1) (Some "USD") (Some "PKR") 1000%float cold
  = (Raise SourceUnavailable,
     {| cache := _cache;
        requests := [endpoint PRIMARY_BASE "usd"; endpoint FALLBACK_BASE "usd"] |}).
Proof. vm_compute. reflexivity. Qed.

(** The same failure inside the direct fetch is caught and reported. *)
Example direct_fetch_failure_is_reported :
  fst (convert offline no_repr (VInt 1) (Some "XYZ") (Some "PKR") 1100%float warm)
  = Ok ("", "Pair not available: XYZ → PKR").
Proof. vm_compute. reflexivity. Qed.

(** C3 as the claim words it: any successful fetch, whatever table it
    returned, is served from the cache for the next 300 seconds. *)
Definition ttl_claim_as_stated : Prop :=
  forall (http_get : list string -> string -> option value)
         force_refresh t1 t2 w0 d r w1,
    force_refresh = true \/ present (cache w0) = false
    \/ age_below_ttl t1 (cache w0) = false ->
    _get_usd_rates http_get force_refresh t1 w0 = (Ok (d, r), w1) ->
    PrimFloat.ltb (t2 - t1) CACHE_TTL_SECS = true ->
    _get_usd_rates http_get false t2 w1 = (Ok (d, r), w1).

(** The service answers with an empty rate table. *)
Definition serving_empty : list string -> string -> option value :=
  serving usd_url (response "2024-01-01" "usd" ∅).

(** C3, counterexample.  The first call, at time 1000, fetches
    [{"date": "2024-01-01", "usd": {}}] and stores it; the second call, one
    second later, finds the stored table falsy and fetches again: two
    requests instead of one. *)
Lemma empty_table_is_fetched_again :
  let first := _get_usd_rates serving_empty false 1000%float cold in
  let second := _get_usd_rates serving_empty false 1001%float (snd first) in
  fst first = Ok (VStr "2024-01-01", VDict ∅)
  /\ cache (snd first)
     = {| ts := 1000%float; date := VStr "2024-01-01"; rates := VDict ∅ |}
  /\ PrimFloat.ltb (1001 - 1000) CACHE_TTL_SECS = true
  /\ requests (snd first) = [usd_url]
  /\ requests (snd second) = [usd_url; usd_url]
  /\ ~ ttl_claim_as_stated.
Proof.
  cbv zeta. repeat split; try (vm_compute; reflexivity).
  intros H.
  specialize (H serving_empty false 1000%float 1001%float cold
                (VStr "2024-01-01") (VDict ∅)
                (snd (_get_usd_rates serving_empty false 1000%float cold))).
  assert (E : requests (snd (_get_usd_rates serving_empty false 1001%float
                (snd (_get_usd_rates serving_empty false 1000%float cold))))
              = [usd_url; usd_url]) by (vm_compute; reflexivity).
  rewrite H in E; try (vm_compute; reflexivity).
  - vm_compute in E. discriminate E.
  - right. left. vm_compute. reflexivity.
Qed.

(** The service answers with the sample table. *)
Definition serving_sample : list string -> string -> option value :=
  serving usd_url (response "2024-01-01" "usd" sample_rates).

(** C3, witness: a fetch at time 1000 and a call at time 1299.5. *)
Lemma get_usd_rates_ttl_witness :
  let first := _get_usd_rates serving_sample false 1000%float cold in
  _get_usd_rates serving_sample false 1299.5%float (snd first) = first
  /\ requests (snd first) = [usd_url]
  /\ requests (snd (_get_usd_rates serving_sample false 1300%float (snd first)))
     = [usd_url; usd_url].
Proof.
  cbv zeta. split; [|split; vm_compute; reflexivity].
  refine (eq_trans
    (proj1 (get_usd_rates_ttl serving_sample) false 1000%float 1299.5%float cold
       (VStr "2024-01-01") (VDict sample_rates)
       (snd (_get_usd_rates serving_sample false 1000%float cold)) _ _ _ _) _).
  - right. left. vm_compute. reflexivity.
  - vm_compute. reflexivity.
  - vm_compute. reflexivity.
  - vm_compute. reflexivity.
  - vm_compute. reflexivity.
Defined.

(** A currency the USD table lacks, served by its own endpoint. *)
Definition xyz_url : string := endpoint PRIMARY_BASE "xyz".

Definition serving_xyz : list string -> string -> option value :=
  serving xyz_url (response "2024-02-02" "xyz" {[ "pkr" := VFloat 2.5 ]}).

(** C4, witness: ["xyz"] is not in the cached table; the claim's three
    parts at [convert(4, "XYZ", "PKR")]. *)
Lemma convert_direct_fetch_witness :
  let call :=
    convert serving_xyz no_repr (VInt 4) (Some "XYZ") (Some "PKR") 1100%float warm in
  let fetched := _fetch_base_rates serving_xyz "xyz" warm in
  snd call = snd fetched
  /\ (forall d_date d_map direct,
        fst fetched = Ok (d_date, VDict d_map) ->
        d_map !! "pkr" = Some (VFloat direct) ->
        fst call = Ok (direct_success no_repr (4 * direct) direct
                         (Some "XYZ") (Some "PKR") d_date))
  /\ ((exists e, fst fetched = Raise e)
      \/ (exists d_date d_map,
            fst fetched = Ok (d_date, VDict d_map) /\ d_map !! "pkr" = None) ->
      fst call = Ok (PairUnavailable (Some "XYZ") (Some "PKR"))).
Proof.
  apply (convert_direct_fetch serving_xyz no_repr (VInt 4) (Some "XYZ") (Some "PKR")
           1100%float warm 4%float (VStr "2024-01-01") sample_rates warm).
  - vm_compute. reflexivity.
  - vm_compute. reflexivity.
  - vm_compute. discriminate.
  - vm_compute. discriminate.
  - vm_compute. reflexivity.
  - left. split; [vm_compute; discriminate | vm_compute; reflexivity].
Defined.

Example direct_fetch_succeeds :
  convert serving_xyz no_repr (VInt 4) (Some "XYZ") (Some "PKR") 1100%float warm
  = (Ok ("10.000000 PKR", "Rate: 1 XYZ = 2.500000 PKR  (date 2024-02-02)"),
     logged xyz_url warm).
Proof. vm_compute. reflexivity. Qed.

(** C6, witness: the three examples of the specification, with both
    endpoints down. *)
Lemma convert_validation_witness :
  convert offline no_repr (VInt (-1)) (Some "USD") (Some "PKR") 1000%float cold
  = (Ok ("", "Amount must be non-negative."), cold)
  /\ convert offline no_repr (VStr "abc") (Some "USD") (Some "PKR") 1000%float cold
     = (Ok ("", "Invalid amount (must be a number)."), cold)
  /\ convert offline no_repr (VInt 1) (Some "") (Some "PKR") 1000%float cold
     = (Ok ("", "Please choose both currencies."), cold).
Proof.
  split; [|split].
  - apply (proj1 (proj2 (convert_validation offline no_repr (VInt (-1))
              (Some "USD") (Some "PKR") 1000%float cold)) (-1)%float);
      vm_compute; reflexivity.
  - apply (proj1 (convert_validation offline no_repr (VStr "abc")
              (Some "USD") (Some "PKR") 1000%float cold) ValueError);
      vm_compute; reflexivity.
  - apply (proj2 (proj2 (convert_validation offline no_repr (VInt 1)
              (Some "") (Some "PKR") 1000%float cold)) 1%float);
      [vm_compute; reflexivity | vm_compute; reflexivity | left; reflexivity].
Defined.

(** The amount is checked first: a bad amount with bad codes is a bad
    amount. *)
Example amount_checked_before_codes :
  fst (convert offline no_repr (VStr "abc") None (Some "  ") 1000%float cold)
  = Ok InvalidAmount
  /\ fst (convert offline no_repr (VFloat (-0.5)) None None 1000%float cold)
     = Ok NegativeAmount.
Proof. split; vm_compute; reflexivity. Qed.

(** [float()] does not skip the separators 0x1c-0x1f that [str.strip]
    removes: the amount ["\x1f1"] is rejected, with no fetch, although
    its stripped form is ["1"]; ordinary white space is skipped. *)
Example separator_amount_is_invalid :
  strip (String "031" "1") = "1"
  /\ float_of_str (String "031" "1") = Raise ValueError
  /\ convert serving_sample no_repr (VStr (String "031" "1")) (Some "USD") (Some "PKR")
       1000%float cold
     = (Ok InvalidAmount, cold)
  /\ float_of_str (String "009" (String "032" (String "1" (String "010" ""))))
     = Ok 1%float.
Proof. repeat split; vm_compute; reflexivity. Qed.

(** The service answers with the codes of the specification's example. *)
Definition three_codes : gmap string value :=
  {[ "pkr" := VFloat 278.1; "eur" := VFloat 0.9; "usd" := VInt 1 ]}.

Definition serving_three : list string -> string -> option value :=
  serving usd_url (response "2024-01-01" "usd" three_codes).

(** C7, witness: fetched codes [{"pkr", "eur", "usd"}], with a fresh table
    already in the cache. *)
Lemma available_codes_order_witness :
  (exists rest : list string,
      available_codes serving_three 1100%float warm =
        (Ok (filter (fun c => c ∈ codes_of three_codes) popular ++ rest)%list,
         stored {| ts := 1100%float; date := VStr "2024-01-01";
                   rates := VDict three_codes |} (logged usd_url warm))
      /\ StronglySorted str_le rest /\ NoDup rest
      /\ (forall c, c ∈ rest <-> c ∈ codes_of three_codes /\ c ∉ popular)
      /\ (forall c, c ∈ codes_of three_codes <->
                    c = "USD" \/ exists k, is_Some (three_codes !! k) /\ c = upper k))
  /\ fst (available_codes serving_three 1100%float warm) = Ok ["USD"; "EUR"; "PKR"].
Proof.
  split; [|vm_compute; reflexivity].
  apply (proj1 (available_codes_order serving_three 1100%float warm)).
  vm_compute. reflexivity.
Defined.

(** Codes outside the popular list follow it in lexicographic order. *)
Example available_codes_rest_sorted :
  fst (available_codes
         (serving usd_url
            (response "2024-01-01" "usd"
               {[ "zar" := VFloat 18.5; "jpy" := VFloat 150; "aud" := VFloat 1.5;
                  "eur" := VFloat 0.9; "chf" := VFloat 0.88 ]}))
         1000%float cold)
  = Ok ["USD"; "EUR"; "JPY"; "AUD"; "CHF"; "ZAR"].
Proof. vm_compute. reflexivity. Qed.

(** C9, witness: two pair-unavailable lookups in a row on a fresh cache;
    each makes the direct requests, neither touches the slot. *)
Lemma direct_fetch_keeps_cache_witness :
  let after :=
    snd (convert offline no_repr (VInt 1) (Some "XYZ") (Some "PKR") 1100%float warm) in
  cache after = cache warm
  /\ (present (cache warm) = true -> age_below_ttl 1100%float (cache warm) = true ->
      cache after = cache warm)
  /\ exists more,
      requests after = (requests warm ++ endpoint PRIMARY_BASE "xyz" :: more)%list.
Proof.
  apply (direct_fetch_keeps_cache offline no_repr (VInt 1) (Some "XYZ") (Some "PKR")
           1100%float warm 1%float (VStr "2024-01-01") sample_rates warm).
  - vm_compute. reflexivity.
  - vm_compute. reflexivity.
  - vm_compute. discriminate.
  - vm_compute. discriminate.
  - vm_compute. reflexivity.
  - left. split; [vm_compute; discriminate | vm_compute; reflexivity].
Defined.

Example repeated_lookup_fetches_again :
  let once :=
    snd (convert offline no_repr (VInt 1) (Some "XYZ") (Some "PKR") 1100%float warm) in
  let twice :=
    snd (convert offline no_repr (VInt 1) (Some "XYZ") (Some "PKR") 1101%float once) in
  requests once = [endpoint PRIMARY_BASE "xyz"; endpoint FALLBACK_BASE "xyz"]
  /\ requests twice = (requests once ++ requests once)%list
  /\ cache twice = cache warm.
Proof. cbv zeta. repeat split; vm_compute; reflexivity. Qed.

(** C10, witness: [convert(1, None, "PKR")] and [convert(1, "USD", None)]. *)
Lemma convert_none_code_witness :
  convert offline no_repr (VInt 1) None (Some "PKR") 1000%float cold
  = (Ok ("", "Please choose both currencies."), cold)
  /\ convert offline no_repr (VFloat 1) (Some "USD") None 1000%float cold
     = (Ok ("", "Please choose both currencies."), cold).
Proof.
  split.
  - apply (convert_none_code offline no_repr (VInt 1) None (Some "PKR")
             1000%float cold 1%float);
      [vm_compute; reflexivity | vm_compute; reflexivity | left; reflexivity].
  - apply (convert_none_code offline no_repr (VFloat 1) (Some "USD") None
             1000%float cold 1%float);
      [vm_compute; reflexivity | vm_compute; reflexivity | right; reflexivity].
Defined.

(** Two rates at the far ends of the binary64 range *)
Definition extreme_rates : gmap string value :=
  {[ "aaa" := VFloat 1e-200; "bbb" := VFloat 1e200 ]}.

Definition extreme : World :=
  {| cache := {| ts := 1000%float; date := VStr "2024-01-01";
                 rates := VDict extreme_rates |};
     requests := [] |}.

(** C8, counterexample.  Both rates are positive normal numbers, yet
    [rate(A->B) = 1e200 / 1e-200] overflows to infinity and
    [rate(B->A)] underflows to zero: their product is NaN, within no
    tolerance of 1, and so is the round trip of the amount 1. *)
Lemma extreme_rates_not_inverse :
  let ra := 1e-200%float in
  let rb := 1e200%float in
  is_normal ra = true /\ is_normal rb = true
  /\ resolve extreme_rates "aaa" = VFloat ra
  /\ resolve extreme_rates "bbb" = VFloat rb
  /\ py_truediv (VFloat rb) (VFloat ra) = Ok infinity
  /\ py_truediv (VFloat ra) (VFloat rb) = Ok 0%float
  /\ Prim2SF ((rb / ra) * (ra / rb)) = S754_nan
  /\ (forall tol : float,
        PrimFloat.leb (abs ((rb / ra) * (ra / rb) - 1)) tol = false)
  /\ (forall tol : float,
        PrimFloat.leb (abs (1 * (rb / ra) * (ra / rb) - 1)) tol = false)
  /\ fst (convert offline no_repr (VInt 1) (Some "AAA") (Some "BBB") 1100%float extreme)
     = Ok ("inf BBB", "1 AAA = inf BBB  (last update 2024-01-01)")
  /\ fst (convert offline no_repr (VFloat infinity) (Some "BBB") (Some "AAA")
            1100%float extreme)
     = Ok ("nan AAA", "1 BBB = 0.000000 AAA  (last update 2024-01-01)").
Proof.
  cbv zeta. repeat split; try (vm_compute; reflexivity).
  - intros tol. rewrite leb_spec.
    replace (Prim2SF (abs (1e200 / 1e-200 * (1e-200 / 1e200) - 1)))
      with S754_nan by (vm_compute; reflexivity).
    reflexivity.
  - intros tol. rewrite leb_spec.
    replace (Prim2SF (abs (1 * (1e200 / 1e-200) * (1e-200 / 1e200) - 1)))
      with S754_nan by (vm_compute; reflexivity).
    reflexivity.
Qed.

(** C8, witness: the sample table. *)
Lemma cross_rates_inverse_witness :
  let ra := 0.9%float in
  let rb := 278.1%float in
  py_truediv (resolve sample_rates "pkr") (resolve sample_rates "eur") = Ok (rb / ra)%float
  /\ py_truediv (resolve sample_rates "eur") (resolve sample_rates "pkr") = Ok (ra / rb)%float
  /\ (Qabs (float_value ((rb / ra) * (ra / rb)) - 1) <= tolerance)%Q
  /\ forall amt : float,
       (is_normal (amt * (rb / ra)) = true ->
        is_normal (amt * (rb / ra) * (ra / rb)) = true ->
        Qabs (float_value (amt * (rb / ra) * (ra / rb)) - float_value amt)
        <= tolerance * Qabs (float_value amt))%Q
       /\ (PrimFloat.eqb amt 0 = true ->
           float_value (amt * (rb / ra) * (ra / rb)) == 0)%Q.
Proof.
  apply (cross_rates_inverse sample_rates "eur" "pkr" 0.9%float 278.1%float);
    vm_compute; reflexivity.
Defined.

(** On the sample table the product of the two rates is not 1 but the
    float just below it, [1 - 2^-53]; 10 EUR come back as 10 EUR. *)
Example sample_round_trip :
  ((278.1 / 0.9) * (0.9 / 278.1) = 0x1.fffffffffffffp-1)%float
  /\ (10 * (278.1 / 0.9) * (0.9 / 278.1) = 10)%float.
Proof. split; vm_compute; reflexivity. Qed.

(** What [convert] displays is rounded to six decimals: 1 PKR shows as
    0.003236 EUR, and that figure converts back to 0.999924 PKR.  The round
    trip of C8 is the one of the unrounded values. *)
Example displayed_round_trip :
  fst (convert offline no_repr (VInt 1) (Some "PKR") (Some "EUR") 1100%float warm)
  = Ok ("0.003236 EUR", "1 PKR = 0.003236 EUR  (last update 2024-01-01)")
  /\ fst (convert offline no_repr (VStr "0.003236") (Some "EUR") (Some "PKR")
            1100%float warm)
     = Ok ("0.999924 PKR", "1 EUR = 309.000000 PKR  (last update 2024-01-01)").
Proof. split; vm_compute; reflexivity. Qed.

(** A rate of zero in the table is outside the data model (rates are
    positive); on it the division of step 6 raises. *)
Example zero_rate_raises :
  fst (convert offline no_repr (VInt 1) (Some "EUR") (Some "USD") 1100%float
         {| cache := {| ts := 1000%float; date := VStr "2024-01-01";
                        rates := VDict {[ "eur" := VFloat 0 ]} |};
            requests := [] |})
  = Raise ZeroDivisionError.
Proof. vm_compute. reflexivity. Qed.

(** ** Exact float identities and letter case

    What the further properties need of the run-time. *)

(** *** Exact quotients and products *)

(** A float divided by itself: the quotient of the two equal mantissas is
    a power of two, which the rounding leaves alone. *)
Lemma SFdiv_same (s : bool) (m : positive) (e : Z) :
  SFdiv prec emax (S754_finite s m e) (S754_finite s m e) = Prim2SF 1.
Proof.
  unfold SFdiv, SFdiv_core_binary.
  rewrite !Z.sub_diag.
  change (Z.min (fexp prec emax 0) 0) with (-53).
  change (0 - -53) with 53.
  cbv beta iota zeta.
  rewrite Z.shiftl_mul_pow2 by lia.
  assert (Hgt : Zpos m > 0) by lia.
  assert (Hdiv := Z_div_mod (Zpos m * 2 ^ 53) (Zpos m) Hgt).
  destruct (Z.div_eucl (Zpos m * 2 ^ 53) (Zpos m)) as [q r].
  destruct Hdiv as [Hq Hr].
  assert (r = 0 /\ q = 2 ^ 53) as [-> ->].
  { change (2 ^ 53) with 9007199254740992 in *.
    assert (Hr' : r = Zpos m * (9007199254740992 - q)) by lia.
    destruct (Z.lt_trichotomy q 9007199254740992) as [Hlt|[->|Hlt]]; [nia | lia | nia]. }
  replace (new_location (Zpos m) 0) with loc_Exact.
  2:{ unfold new_location. destruct (Z.even (Zpos m)); reflexivity. }
  rewrite xorb_nilpotent. vm_compute. reflexivity.
Qed.

Lemma div_same (x : float) (s : bool) (m : positive) (e : Z) :
  Prim2SF x = S754_finite s m e -> (x / x)%float = 1%float.
Proof.
  intros H. apply Prim2SF_inj. rewrite div_spec, H. apply SFdiv_same.
Qed.

(** A representable [m * 2^e], written with [k] more low zero bits, is
    rounded to itself. *)
Lemma binary_round_aux_scaled (s : bool) (m : positive) (e : Z) (k : positive) :
  bounded prec emax m e = true ->
  binary_round_aux prec emax s (Zpos m * 2 ^ Zpos k) (e - Zpos k) loc_Exact
  = S754_finite s m e.
Proof.
  unfold bounded, canonical_mantissa. intros H.
  apply andb_true_iff in H as [Hc Hb]. apply Z.eqb_eq in Hc.
  destruct (digits2_pos_bounds m) as [Dl Du].
  set (d := Zpos (digits2_pos m)) in *.
  assert (Hk : 0 < 2 ^ Zpos k) by (apply Z.pow_pos_nonneg; lia).
  assert (Hd : Zdigits2 (Zpos m * 2 ^ Zpos k) = d + Zpos k).
  { destruct (Zpos m * 2 ^ Zpos k) as [|p|p] eqn:Hp; try lia.
    simpl. apply digits2_pos_unique. rewrite <- Hp.
    replace (d + Zpos k - 1) with (d - 1 + Zpos k) by lia.
    rewrite !Z.pow_add_r by (unfold d; lia). nia. }
  unfold binary_round_aux, shr_fexp. rewrite Hd.
  replace (d + Zpos k + (e - Zpos k)) with (d + e) by lia.
  rewrite Hc. replace (e - (e - Zpos k)) with (Zpos k) by lia.
  assert (Hloc : locates (shr_record_of_loc (Zpos m * 2 ^ Zpos k) loc_Exact)
                   (Zpos m * 2 ^ Zpos k) 1).
  { unfold locates. simpl. lia. }
  apply (locates_iter_pos k) in Hloc. rewrite Z.mul_1_r in Hloc.
  unfold shr.
  destruct (SpecFloat.iter_pos shr_1 k _) as [m' r' s'].
  unfold locates in Hloc. simpl in Hloc.
  assert (m' = Zpos m /\ r' = false /\ s' = false) as (-> & -> & ->).
  { destruct Hloc as (H0 & _ & Hl). set (P := 2 ^ Zpos k) in *. clearbody P.
    assert (Hlt : forall a b, a * P < b * P -> a < b)
      by (intros a b; apply Z.mul_lt_mono_pos_r; exact Hk).
    assert (Heq : forall a b, a * P = b * P -> a = b)
      by (intros a b; apply Z.mul_cancel_r; lia).
    destruct r', s'.
    - destruct Hl as [L U].
      assert (L' : 2 * m' + 1 < 2 * Zpos m) by (apply Hlt; lia).
      assert (U' : 2 * Zpos m < 2 * m' + 2) by (apply Hlt; lia). lia.
    - assert (E : 2 * Zpos m = 2 * m' + 1) by (apply Heq; lia). lia.
    - destruct Hl as [L U].
      assert (L' : 2 * m' < 2 * Zpos m) by (apply Hlt; lia).
      assert (U' : 2 * Zpos m < 2 * m' + 1) by (apply Hlt; lia). lia.
    - assert (E : Zpos m = m') by (apply Heq; lia). auto. }
  simpl shr_m. simpl loc_of_shr_record. simpl round_nearest_even.
  change (Zdigits2 (Zpos m)) with d.
  replace (e - Zpos k + Zpos k) with e by lia.
  rewrite Hc, Z.sub_diag. simpl. now rewrite Hb.
Qed.

(** Multiplying by [1.0] changes nothing, whatever the float. *)
Lemma mul_one (x : float) : (x * 1)%float = x.
Proof.
  apply Prim2SF_inj. rewrite mul_spec.
  pose proof (Prim2SF_valid x) as Hv.
  change (Prim2SF 1) with (S754_finite false 4503599627370496 (-52)).
  destruct (Prim2SF x) as [s|s| |s m e]; unfold SF64mul, SFmul;
    try (now destruct s); [reflexivity|].
  rewrite xorb_false_r.
  change (Zpos (m * 4503599627370496)) with (Zpos m * 2 ^ 52).
  change (e + -52) with (e - 52).
  now apply binary_round_aux_scaled.
Qed.

(** *** Letter case and white space *)

Lemma ascii_lower_upper (c : ascii) : ascii_lower (ascii_upper c) = ascii_lower c.
Proof. destruct c as [[] [] [] [] [] [] [] []]; reflexivity. Qed.

Lemma ascii_upper_idem (c : ascii) : ascii_upper (ascii_upper c) = ascii_upper c.
Proof. destruct c as [[] [] [] [] [] [] [] []]; reflexivity. Qed.

Lemma is_space_upper (c : ascii) : is_space (ascii_upper c) = is_space c.
Proof. destruct c as [[] [] [] [] [] [] [] []]; reflexivity. Qed.

Lemma lower_upper (s : string) : lower (upper s) = lower s.
Proof.
  unfold lower, upper. induction s as [|c s IH]; [reflexivity|].
  simpl. now rewrite ascii_lower_upper, IH.
Qed.

Lemma upper_idem (s : string) : upper (upper s) = upper s.
Proof.
  unfold upper. induction s as [|c s IH]; [reflexivity|].
  simpl. now rewrite ascii_upper_idem, IH.
Qed.

Lemma lstrip_upper (s : string) : lstrip (upper s) = upper (lstrip s).
Proof.
  unfold upper. induction s as [|c s IH]; [reflexivity|].
  simpl. rewrite is_space_upper. now destruct (is_space c).
Qed.

Lemma rstrip_upper (s : string) : rstrip (upper s) = upper (rstrip s).
Proof.
  unfold upper. induction s as [|c s IH]; [reflexivity|].
  simpl. rewrite IH, is_space_upper.
  destruct (rstrip s); simpl; [now destruct (is_space c) | reflexivity].
Qed.

Lemma strip_upper (s : string) : strip (upper s) = upper (strip s).
Proof. unfold strip. now rewrite lstrip_upper, rstrip_upper. Qed.

(** The key [convert] looks a code up by is determined by the code as it
    is displayed. *)
Lemma normalize_shown (code : option string) :
  normalize code = lower (strip (shown code)).
Proof. unfold normalize, shown. now rewrite strip_upper, lower_upper. Qed.

(** ** The handlers of the form

    [on_convert], [on_swap] and [on_refresh] are what the three buttons
    call.  [gr.update(choices=...)] is kept as the list of choices it
    carries. *)

Record Update : Type := { choices : list string }.

Definition on_swap (f t : option string) : option string * option string := (t, f).

Section Handlers.

Variable http_get : list string -> string -> option value.
Variable repr_other : value -> string.

Definition on_convert (amount : value) (from_code to_code : option string)
  (now : float) : M (string * string) :=
  '(res, info) <- convert http_get repr_other amount from_code to_code now ;;
  ret (res, info).

(** [now1] and [now2] are the two readings of the clock: the one of the
    handler's own [_get_usd_rates] call and the one inside
    [available_codes]. *)
Definition on_refresh (now1 now2 : float) : M (Update * Update * string) :=
  _ <- _get_usd_rates http_get true now1 ;;
  new_codes <- available_codes http_get now2 ;;
  ret ({| choices := new_codes |}, {| choices := new_codes |},
       "✅ Rates refreshed (fetched latest).").

(** ** Further properties of the program *)

Lemma on_convert_convert amount from_code to_code now w :
  on_convert amount from_code to_code now w
  = convert http_get repr_other amount from_code to_code now w.
Proof.
  unfold on_convert, bind.
  destruct (convert http_get repr_other amount from_code to_code now w)
    as [[[res info]|e] w']; reflexivity.
Qed.

(** *** The fetch *)

(** X1.  [_fetch_base_rates] neither reads nor writes the cache slot:
    run on any other slot it makes the same requests and returns the same
    result or error, and the slot it finds is the slot it leaves.  It
    makes one request or two, appended to the log. *)
Theorem fetch_base_rates_frame base_code w c :
  let run := _fetch_base_rates http_get base_code w in
  _fetch_base_rates http_get base_code {| cache := c; requests := requests w |}
  = (fst run, {| cache := c; requests := requests (snd run) |})
  /\ cache (snd run) = cache w
  /\ exists more,
       requests (snd run) = (requests w ++ more)%list
       /\ (length more = 1 \/ length more = 2)%nat.
Proof.
  cbv zeta. rewrite !fetch_base_rates_refines. unfold fetchBaseRates, attempt, logged.
  simpl requests.
  destruct (http_get (requests w) _) as [data|].
  - destruct (fields _ data) as [out|].
    + repeat split. exists [endpoint PRIMARY_BASE base_code]. auto.
    + destruct (http_get _ _) as [data2|]; [destruct (fields _ data2) as [out|]|].
      all: repeat split.
      all: exists [endpoint PRIMARY_BASE base_code; endpoint FALLBACK_BASE base_code].
      all: simpl; rewrite <- app_assoc; auto.
  - destruct (http_get _ _) as [data2|]; [destruct (fields _ data2) as [out|]|].
    all: repeat split.
    all: exists [endpoint PRIMARY_BASE base_code; endpoint FALLBACK_BASE base_code].
    all: simpl; rewrite <- app_assoc; auto.
Qed.

(** *** The cache slot *)

(** What a new fetch of the USD table leaves behind. *)
Lemma refresh_outcome now w :
  let '(r, w') := refresh http_get now w in
  (exists more, requests w' = (requests w ++ endpoint PRIMARY_BASE "usd" :: more)%list)
  /\ match r with
     | Ok (d, rt) => cache w' = {| ts := now; date := d; rates := rt |}
     | Raise e => e = SourceUnavailable /\ cache w' = cache w
     end.
Proof.
  unfold refresh, fetchBaseRates.
  destruct (attempt http_get w _ _) as [[d rt]|].
  - split; [exists []; reflexivity | reflexivity].
  - destruct (attempt http_get _ _ _) as [[d rt]|]; simpl.
    + split; [|reflexivity].
      exists [endpoint FALLBACK_BASE "usd"]. now rewrite <- app_assoc.
    + split; [|split; reflexivity].
      exists [endpoint FALLBACK_BASE "usd"]. now rewrite <- app_assoc.
Qed.

(** X2.  Whatever the cache held and whether or not a fetch was needed,
    a [_get_usd_rates] call that returns leaves in the slot exactly the
    [(date, rates)] it returned, and stamps the slot with the time of the
    call when it fetched; a call that raises raises the error of the fetch
    and leaves the slot as it was.  The request log only grows. *)
Theorem get_usd_rates_slot force_refresh now w :
  let '(r, w') := _get_usd_rates http_get force_refresh now w in
  (exists more, requests w' = (requests w ++ more)%list)
  /\ match r with
     | Ok (d, rt) =>
         date (cache w') = d /\ rates (cache w') = rt
         /\ (w' = w \/ ts (cache w') = now)
     | Raise e => e = SourceUnavailable /\ cache w' = cache w
     end.
Proof.
  rewrite get_usd_rates_refines. unfold getUsdRates.
  destruct (negb force_refresh && present (cache w) && age_below_ttl now (cache w)).
  - split; [exists []; now rewrite app_nil_r|]. auto.
  - pose proof (refresh_outcome now w) as H.
    destruct (refresh http_get now w) as [[[d rt]|e] w'].
    + destruct H as [[more Hm] Hc]. split; [eauto|]. rewrite Hc. auto.
    + destruct H as [[more Hm] Hc]. split; [eauto|]. exact Hc.
Qed.

(** The only error of [_get_usd_rates] is the one of the fetch, and it
    leaves the slot alone. *)
Lemma get_usd_rates_raises force_refresh now w e w' :
  _get_usd_rates http_get force_refresh now w = (Raise e, w') ->
  e = SourceUnavailable /\ cache w' = cache w.
Proof.
  rewrite get_usd_rates_refines. unfold getUsdRates.
  destruct (negb force_refresh && present (cache w) && age_below_ttl now (cache w));
    [discriminate|].
  pose proof (refresh_outcome now w) as H.
  destruct (refresh http_get now w) as [[[d rt]|e1] w1]; [discriminate|].
  intros [= <- <-]. apply H.
Qed.

(** Every call leaves the slot as it was or stamps it with its own
    clock reading, and only adds to the log. *)
Lemma get_usd_rates_stamp force_refresh now w :
  let w' := snd (_get_usd_rates http_get force_refresh now w) in
  (cache w' = cache w \/ ts (cache w') = now)
  /\ exists more, requests w' = (requests w ++ more)%list.
Proof.
  cbv zeta. rewrite get_usd_rates_refines. unfold getUsdRates.
  destruct (negb force_refresh && present (cache w) && age_below_ttl now (cache w)).
  - split; [now left | exists []; simpl; now rewrite app_nil_r].
  - pose proof (refresh_outcome now w) as H.
    destruct (refresh http_get now w) as [[[d rt]|e] w']; simpl.
    + destruct H as [[more Hm] ->]. split; [now right | eauto].
    + destruct H as [[more Hm] [_ ->]]. split; [now left | eauto].
Qed.

(** A cache that holds a non-empty table younger than the TTL is served
    as it is. *)
Lemma get_usd_rates_fresh now w (usd : gmap string value) :
  rates (cache w) = VDict usd -> usd <> ∅ ->
  PrimFloat.ltb (now - ts (cache w)) CACHE_TTL_SECS = true ->
  _get_usd_rates http_get false now w = (Ok (date (cache w), VDict usd), w).
Proof.
  intros Hr Hne Hage. rewrite get_usd_rates_hit.
  - now rewrite Hr.
  - unfold present. rewrite Hr. simpl.
    apply negb_true_iff, Nat.eqb_neq. intros H. now apply map_size_empty_iff in H.
  - exact Hage.
Qed.

(** *** The code list *)

Lemma NoDup_popular : NoDup popular.
Proof. apply (bool_decide_unpack _). vm_compute. exact I. Qed.

(** What a successful [available_codes] call did: it stored a table that
    is a dictionary, and its list is the popular codes of that table
    followed by the sorted rest. *)
Lemma available_codes_inv now w l w' :
  available_codes http_get now w = (Ok l, w') ->
  exists dt d,
    cache w' = {| ts := now; date := dt; rates := VDict d |}
    /\ l = (filter (fun c => c ∈ codes_of d) popular
            ++ merge_sort str_le (filter (fun c => c ∉ popular) (elements (codes_of d))))%list
    /\ exists more,
         requests w' = (requests w ++ endpoint PRIMARY_BASE "usd" :: more)%list.
Proof.
  unfold available_codes, bind. rewrite get_usd_rates_miss by now left.
  pose proof (refresh_outcome now w) as H.
  destruct (refresh http_get now w) as [[[dt rt]|e] w1]; [|discriminate].
  destruct H as [Hm Hc].
  destruct rt as [| | | | | |d]; try discriminate.
  simpl. rewrite codes_of_keys. intros [= <- <-].
  exists dt, d. auto.
Qed.

Lemma elem_of_available_codes (d : gmap string value) (c : string) :
  c ∈ (filter (fun c => c ∈ codes_of d) popular
       ++ merge_sort str_le (filter (fun c => c ∉ popular) (elements (codes_of d))))%list
  <-> c ∈ codes_of d.
Proof.
  destruct (rest_sorted http_get (codes_of d)) as (_ & _ & Hm).
  rewrite elem_of_app, list_elem_of_filter, Hm.
  destruct (decide (c ∈ popular)); tauto.
Qed.

(** X3.  The list that [available_codes] returns names every code of the
    table it has just stored, and ["USD"], exactly once: it has no
    duplicates, it starts with ["USD"], every entry is upper-case, and a
    code is in the list exactly when it is ["USD"] or the upper-cased form
    of a key of the stored table. *)
Theorem available_codes_list now w l w' :
  available_codes http_get now w = (Ok l, w') ->
  NoDup l
  /\ head l = Some "USD"
  /\ (forall c, c ∈ l -> upper c = c)
  /\ exists d, rates (cache w') = VDict d
       /\ forall c, c ∈ l <-> c = "USD" \/ exists k, is_Some (d !! k) /\ c = upper k.
Proof.
  intros H. apply available_codes_inv in H as (dt & d & Hc & -> & _).
  destruct (rest_sorted http_get (codes_of d)) as (_ & Hn & Hm).
  assert (Hin : forall c, c ∈ codes_of d <->
                  c = "USD" \/ exists k, is_Some (d !! k) /\ c = upper k)
    by apply elem_of_codes_of.
  split; [|split; [|split]].
  - apply NoDup_app. split; [apply NoDup_filter, NoDup_popular|]. split; [|exact Hn].
    intros c Hp Hr. apply list_elem_of_filter in Hp as [_ Hp].
    apply Hm in Hr as [_ Hr]. contradiction.
  - unfold popular. rewrite filter_cons_True; [reflexivity|].
    apply Hin. now left.
  - intros c Hc'. apply elem_of_available_codes, Hin in Hc'.
    destruct Hc' as [-> | (k & _ & ->)]; [reflexivity | apply upper_idem].
  - exists d. rewrite Hc. split; [reflexivity|].
    intros c. now rewrite elem_of_available_codes.
Qed.

(** A lower-case key without surrounding white space is the key that its
    displayed form is looked up by. *)
Lemma normalize_upper_key (k : string) :
  lower k = k -> strip k = k -> normalize (Some (upper k)) = k.
Proof.
  intros Hl Hs. rewrite normalize_shown. unfold shown, or_empty. simpl default.
  now rewrite upper_idem, strip_upper, Hs, lower_upper.
Qed.

(** *** The conversion *)

(** X4.  [convert] reads a currency code without regard to letter case:
    two calls whose (ASCII) codes differ only in case, so that their
    upper-cased forms agree, look up the same keys, make the same requests
    and return the same texts. *)
Theorem convert_ignores_case amount f1 t1 f2 t2 now w :
  upper (or_empty f1) = upper (or_empty f2) ->
  upper (or_empty t1) = upper (or_empty t2) ->
  convert http_get repr_other amount f1 t1 now w
  = convert http_get repr_other amount f2 t2 now w.
Proof.
  intros Hf Ht.
  assert (Nf : lower (strip (or_empty f1)) = lower (strip (or_empty f2))).
  { change (normalize f1 = normalize f2). rewrite !normalize_shown.
    unfold shown. now rewrite Hf. }
  assert (Nt : lower (strip (or_empty t1)) = lower (strip (or_empty t2))).
  { change (normalize t1 = normalize t2). rewrite !normalize_shown.
    unfold shown. now rewrite Ht. }
  unfold convert, direct_attempt. cbv zeta.
  rewrite Nf, Nt, Hf, Ht. reflexivity.
Qed.

(** A finite, non-zero float has a mantissa and an exponent. *)
Lemma finite_nonzero (x : float) :
  is_finite x = true -> PrimFloat.eqb x 0 = false ->
  exists s m e, Prim2SF x = S754_finite s m e.
Proof.
  unfold is_finite, is_nan, is_infinity.
  rewrite !FloatAxioms.eqb_spec, abs_spec.
  change (Prim2SF 0) with (S754_zero false).
  change (Prim2SF infinity) with (S754_infinity false).
  destruct (Prim2SF x) as [s|s| |s m e]; try destruct s; try discriminate; eauto.
Qed.

(** X5.  Converting a currency into itself changes nothing: when both
    codes normalize to the same key, and that key is ["usd"] or has a
    finite non-zero rate in the table, the rate is exactly [1.0] and the
    converted amount is the amount itself, for every amount. *)
Theorem convert_same_code amount from_code to_code now w amt dt usd w1 x :
  py_float amount = Ok amt ->
  PrimFloat.ltb amt 0 = false ->
  normalize from_code <> "" ->
  normalize to_code = normalize from_code ->
  _get_usd_rates http_get false now w = (Ok (dt, VDict usd), w1) ->
  resolve usd (normalize from_code) = VFloat x ->
  is_finite x = true ->
  PrimFloat.eqb x 0 = false ->
  convert http_get repr_other amount from_code to_code now w =
  (Ok (fixed6 true amt ++ " " ++ upper (or_empty to_code),
       "1 " ++ upper (or_empty from_code) ++ " = 1.000000 "
       ++ upper (or_empty to_code) ++ "  (last update " ++ py_str repr_other dt ++ ")"),
   w1).
Proof.
  intros Hf Hneg Ha Hb Hg Hr Hfin Hnz.
  destruct (finite_nonzero x Hfin Hnz) as (s & m & e & Hx).
  assert (Hb' : normalize to_code <> "") by now rewrite Hb.
  rewrite (convert_cross_rate_of http_get repr_other _ _ _ _ _ amt dt usd w1 1%float
             Hf Hneg Ha Hb' Hg).
  - rewrite mul_one. reflexivity.
  - now rewrite Hr.
  - now rewrite Hb, Hr.
  - rewrite Hb, Hr, (py_truediv_floats _ _ Hnz). f_equal. exact (div_same x s m e Hx).
Qed.

(** X6.  The direct-fetch path never raises.  When a code does not
    resolve in the USD table (it is absent, or its entry is [null]),
    whatever the direct fetch does is turned into a result: a success with
    [amount * direct] when the fetched map is an object with a number for
    the target code, and [PairUnavailable] in every other case (the fetch
    failed, the map is not an object, the code is absent or [null], or
    the entry is not a number). *)
Theorem convert_direct_never_raises amount from_code to_code now w amt dt usd w1 :
  let a := normalize from_code in
  let b := normalize to_code in
  let fetched := fst (_fetch_base_rates http_get a w1) in
  let out := fst (convert http_get repr_other amount from_code to_code now w) in
  py_float amount = Ok amt ->
  PrimFloat.ltb amt 0 = false ->
  a <> "" -> b <> "" ->
  _get_usd_rates http_get false now w = (Ok (dt, VDict usd), w1) ->
  resolve usd a = VNone \/ resolve usd b = VNone ->
  (forall e, out <> Raise e)
  /\ (forall d_date d_map direct y,
        fetched = Ok (d_date, VDict d_map) ->
        d_map !! b = Some direct -> number direct = Ok y ->
        out = Ok (fixed6 true (amt * y) ++ " " ++ upper (or_empty to_code),
                  "Rate: 1 " ++ upper (or_empty from_code) ++ " = " ++ fixed6 false y
                  ++ " " ++ upper (or_empty to_code)
                  ++ "  (date " ++ py_str repr_other d_date ++ ")"))
  /\ ((forall d_date d_map direct y,
         fetched = Ok (d_date, VDict d_map) ->
         d_map !! b = Some direct -> number direct <> Ok y) ->
      out = Ok ("", "Pair not available: " ++ upper (or_empty from_code) ++ " → "
                    ++ upper (or_empty to_code))).
Proof.
  intros a b fetched out Hf Hneg Ha Hb Hg Hnone. unfold out.
  rewrite (convert_fallback http_get repr_other _ _ _ _ _ _ _ _ _ Hf Hneg Ha Hb Hg Hnone).
  fold a b fetched. simpl fst. split; [discriminate|]. split.
  - intros d_date d_map direct y -> Hl Hn. simpl. now rewrite Hl, Hn.
  - intros H. unfold direct_outcome.
    destruct fetched as [[d_date d_map]|e]; [|reflexivity].
    destruct d_map as [| | | | | |d_map]; try reflexivity.
    destruct (d_map !! b) as [direct|] eqn:Hl; [|reflexivity].
    destruct (number direct) as [y|e] eqn:Hn; [|reflexivity].
    now destruct (H d_date d_map direct y eq_refl Hl).
Qed.

(** X7.  A rate table that is not an object is an uncaught error: the
    fetch accepts whatever JSON value stands under the base code, and
    [convert] then raises [AttributeError] from [usd.get] as soon as one
    of the two codes is not ["usd"]. *)
Theorem convert_table_not_object amount from_code to_code now w amt dt usd w1 :
  py_float amount = Ok amt ->
  PrimFloat.ltb amt 0 = false ->
  normalize from_code <> "" ->
  normalize to_code <> "" ->
  _get_usd_rates http_get false now w = (Ok (dt, usd), w1) ->
  (forall d, usd <> VDict d) ->
  normalize from_code <> "usd" \/ normalize to_code <> "usd" ->
  convert http_get repr_other amount from_code to_code now w
  = (Raise AttributeError, w1).
Proof.
  intros Hf Hneg Ha Hb Hg Hd Hc.
  rewrite (convert_validated _ _ _ _ _ _ _ _ Hf Hneg Ha Hb), Hg. cbv zeta.
  assert (Hget : forall k, py_get usd k = Raise AttributeError).
  { intros k. destruct usd as [| | | | | |d]; try reflexivity. now destruct (Hd d). }
  rewrite !Hget.
  destruct (String.eqb_spec (normalize from_code) "usd") as [Ea|Ea]; [|reflexivity].
  destruct (String.eqb_spec (normalize to_code) "usd") as [Eb|Eb]; [|reflexivity].
  destruct Hc; contradiction.
Qed.

(** Division by a float zero *)
Lemma py_truediv_zero v x y :
  number v = Ok y -> PrimFloat.eqb x 0 = true ->
  py_truediv v (VFloat x) = Raise ZeroDivisionError.
Proof.
  intros Hy Hz. unfold py_truediv.
  assert (Hv : is_number v = true).
  { unfold number in Hy. destruct (is_number v); [reflexivity | discriminate]. }
  rewrite Hv. cbn [is_number andb negb int_of].
  destruct (int_of v); rewrite Hy; cbn [number is_number py_float]; now rewrite Hz.
Qed.

(** X8.  A source rate of zero is an uncaught error: when the source
    code resolves to the float [0.0] (or [-0.0]) and the target code to a
    number, [convert] raises [ZeroDivisionError]. *)
Theorem convert_zero_rate amount from_code to_code now w amt dt usd w1 x y :
  py_float amount = Ok amt ->
  PrimFloat.ltb amt 0 = false ->
  normalize from_code <> "" ->
  normalize to_code <> "" ->
  _get_usd_rates http_get false now w = (Ok (dt, VDict usd), w1) ->
  resolve usd (normalize from_code) = VFloat x ->
  PrimFloat.eqb x 0 = true ->
  number (resolve usd (normalize to_code)) = Ok y ->
  convert http_get repr_other amount from_code to_code now w
  = (Raise ZeroDivisionError, w1).
Proof.
  intros Hf Hneg Ha Hb Hg Hx Hz Hy.
  rewrite (convert_validated _ _ _ _ _ _ _ _ Hf Hneg Ha Hb), Hg. cbv zeta.
  rewrite !resolve_lookup, Hx.
  assert (Hn : is_None (resolve usd (normalize to_code)) = false)
    by (destruct (resolve usd (normalize to_code)); try reflexivity; discriminate).
  rewrite Hn, (py_truediv_zero _ _ _ Hy Hz). reflexivity.
Qed.

Lemma number_raises v e :
  number v = Raise e -> e = TypeError \/ e = OverflowError.
Proof.
  destruct v as [|bo|n|x|s|l|d]; simpl; try (intros [= <-]; now left); try discriminate.
  unfold number. simpl. unfold float_of_int.
  destruct (is_infinity _); [intros [= <-]; now right | discriminate].
Qed.

Lemma py_truediv_raises v w e :
  py_truediv v w = Raise e ->
  e = TypeError \/ e = ZeroDivisionError \/ e = OverflowError.
Proof.
  unfold py_truediv.
  destruct (negb (is_number v && is_number w)); [intros [= <-]; auto|].
  destruct (int_of v) as [n|], (int_of w) as [d|].
  1:{ destruct (d =? 0); [intros [= <-]; auto|].
      destruct (is_infinity _); [intros [= <-]; auto | discriminate]. }
  all: destruct (number v) as [x|e1] eqn:Hv;
    [|intros [= <-]; destruct (number_raises _ _ Hv); auto].
  all: destruct (number w) as [y|e2] eqn:Hw;
    [|intros [= <-]; destruct (number_raises _ _ Hw); auto].
  all: destruct (PrimFloat.eqb y 0); [intros [= <-]; auto | discriminate].
Qed.

(** X9.  When [convert] raises, and only then: the amount was a number
    not below zero and both codes were non-empty, and either the USD fetch
    raised its [RuntimeError]; or the table it returned is not an object
    and a code other than ["usd"] had to be looked up in it
    ([AttributeError]); or the table is an object, both codes resolved in
    it, so that no direct fetch was made, and the division of the two
    rates raised ([TypeError], [ZeroDivisionError] or [OverflowError]).
    The state is then the one the USD fetch left.  So nothing that goes
    wrong in the amount, in the codes or on the direct-fetch path is ever
    raised. *)
Theorem convert_exceptions amount from_code to_code now w e w' :
  let a := normalize from_code in
  let b := normalize to_code in
  convert http_get repr_other amount from_code to_code now w = (Raise e, w') <->
  (exists amt, py_float amount = Ok amt /\ PrimFloat.ltb amt 0 = false)
  /\ a <> "" /\ b <> ""
  /\ ((e = SourceUnavailable
       /\ _get_usd_rates http_get false now w = (Raise e, w'))
      \/ exists dt usd,
           _get_usd_rates http_get false now w = (Ok (dt, usd), w')
           /\ ((e = AttributeError /\ (forall d, usd <> VDict d)
                /\ (a <> "usd" \/ b <> "usd"))
               \/ (exists d, usd = VDict d
                     /\ is_None (resolve d a) = false
                     /\ is_None (resolve d b) = false
                     /\ py_truediv (resolve d b) (resolve d a) = Raise e)
                  /\ (e = TypeError \/ e = ZeroDivisionError \/ e = OverflowError))).
Proof.
  intros a b. split.
  - destruct (py_float amount) as [amt|e0] eqn:Hf.
    2:{ unfold convert. rewrite Hf. discriminate. }
    destruct (PrimFloat.ltb amt 0) eqn:Hneg.
    1:{ unfold convert. rewrite Hf, Hneg. discriminate. }
    destruct (is_empty (normalize from_code) || is_empty (normalize to_code)) eqn:He.
    1:{ unfold convert. rewrite Hf, Hneg. unfold normalize in He. rewrite He.
        discriminate. }
    apply orb_false_iff in He as [Ha Hb]. apply is_empty_false in Ha, Hb.
    rewrite (convert_validated _ _ _ _ _ _ _ _ Hf Hneg Ha Hb). fold a b.
    intros H. split; [eauto|]. split; [exact Ha|]. split; [exact Hb|]. revert H.
    destruct (_get_usd_rates http_get false now w) as [[[dt usd]|e1] w1] eqn:Hg.
    2:{ intros [= <- <-]. left. apply get_usd_rates_raises in Hg as [-> _]. auto. }
    cbv zeta. intros H. right. exists dt, usd.
    assert (Hd : (forall d, usd <> VDict d) \/ exists d, usd = VDict d).
    { destruct usd; try (left; discriminate). right. eauto. }
    destruct Hd as [Hd | [d ->]].
    + assert (Hget : forall k, py_get usd k = Raise AttributeError).
      { intros k. destruct usd as [| | | | | |d]; try reflexivity. now destruct (Hd d). }
      rewrite !Hget in H.
      destruct (String.eqb_spec a "usd") as [Ea|Ea].
      * destruct (String.eqb_spec b "usd") as [Eb|Eb].
        -- cbn [is_None orb] in H.
           rewrite py_truediv_floats in H by reflexivity. discriminate.
        -- injection H as <- <-. split; [reflexivity|]. left. auto.
      * injection H as <- <-. split; [reflexivity|]. left. auto.
    + rewrite !resolve_lookup in H.
      destruct (is_None (resolve d a)) eqn:Hra; [discriminate|].
      destruct (is_None (resolve d b)) eqn:Hrb; [discriminate|].
      cbn [orb] in H.
      destruct (py_truediv (resolve d b) (resolve d a)) as [rate|e1] eqn:Hdiv;
        [discriminate|].
      injection H as <- <-. split; [reflexivity|]. right.
      split; [exists d; auto | exact (py_truediv_raises _ _ _ Hdiv)].
  - intros ((amt & Hf & Hneg) & Ha & Hb & H).
    rewrite (convert_validated _ _ _ _ _ _ _ _ Hf Hneg Ha Hb). fold a b.
    destruct H as [[_ Hg] | (dt & usd & Hg & H)]; rewrite Hg; [reflexivity|].
    cbv zeta. destruct H as [(-> & Hd & Hc) | [(d & -> & Hra & Hrb & Hdiv) _]].
    + assert (Hget : forall k, py_get usd k = Raise AttributeError).
      { intros k. destruct usd as [| | | | | |d]; try reflexivity. now destruct (Hd d). }
      rewrite !Hget.
      destruct (String.eqb_spec a "usd") as [Ea|Ea]; [|reflexivity].
      destruct (String.eqb_spec b "usd") as [Eb|Eb]; [|reflexivity].
      destruct Hc; contradiction.
    + now rewrite !resolve_lookup, Hra, Hrb, Hdiv.
Qed.

(** X10.  Whatever its arguments and whatever the network does,
    [convert] writes the cache slot only through the USD fetch: after
    the call the slot is the one from before, or it is stamped with the
    time of this call; the request log has only grown.  This holds for a
    call that raises too. *)
Theorem convert_cache_effect amount from_code to_code now w :
  let w' := snd (convert http_get repr_other amount from_code to_code now w) in
  (cache w' = cache w \/ ts (cache w') = now)
  /\ exists more, requests w' = (requests w ++ more)%list.
Proof.
  cbv zeta.
  assert (Same : (cache w = cache w \/ ts (cache w) = now)
                 /\ exists more, requests w = (requests w ++ more)%list).
  { split; [now left | exists []; now rewrite app_nil_r]. }
  destruct (py_float amount) as [amt|e0] eqn:Hf.
  2:{ unfold convert. rewrite Hf. exact Same. }
  destruct (PrimFloat.ltb amt 0) eqn:Hneg.
  1:{ unfold convert. rewrite Hf, Hneg. exact Same. }
  destruct (is_empty (normalize from_code) || is_empty (normalize to_code)) eqn:He.
  1:{ unfold convert. rewrite Hf, Hneg. unfold normalize in He. rewrite He. exact Same. }
  clear Same.
  apply orb_false_iff in He as [Ha Hb]. apply is_empty_false in Ha, Hb.
  rewrite (convert_validated _ _ _ _ _ _ _ _ Hf Hneg Ha Hb).
  pose proof (get_usd_rates_stamp false now w) as Hs. cbv zeta in Hs.
  destruct (_get_usd_rates http_get false now w) as [[[dt usd]|e1] w1];
    simpl snd in Hs; [|exact Hs].
  cbv zeta.
  destruct (if String.eqb (normalize from_code) "usd" then _ else _) as [r_from|e1];
    [|exact Hs].
  destruct (if String.eqb (normalize to_code) "usd" then _ else _) as [r_to|e1];
    [|exact Hs].
  destruct (is_None r_from || is_None r_to).
  - simpl snd. rewrite fetch_base_rates_cache.
    destruct Hs as [Hc [m1 Hm1]]. split; [exact Hc|].
    destruct (fetch_base_rates_requests http_get (normalize from_code) w1) as [m2 Hm2].
    rewrite Hm2, Hm1, <- app_assoc. eauto.
  - destruct (py_truediv r_to r_from); exact Hs.
Qed.

(** What [_get_usd_rates] returns is what the slot holds afterwards. *)
Lemma get_usd_rates_returns force_refresh now w d rt w' :
  _get_usd_rates http_get force_refresh now w = (Ok (d, rt), w') ->
  date (cache w') = d /\ rates (cache w') = rt.
Proof.
  rewrite get_usd_rates_refines. unfold getUsdRates.
  destruct (negb force_refresh && present (cache w) && age_below_ttl now (cache w)).
  - intros [= <- <- <-]. auto.
  - pose proof (refresh_outcome now w) as H.
    destruct (refresh http_get now w) as [[[d1 rt1]|e1] w1]; [|discriminate].
    intros [= <- <- <-]. destruct H as [_ ->]. auto.
Qed.

(** X11.  A conversion that went through the cross-rate step can be
    repeated for as long as the table it used stays fresh: the second
    click on Convert makes no request, leaves the world as the first one
    left it, and gives the same answer. *)
Theorem on_convert_repeatable amount from_code to_code t1 t2 w amt dt usd w1 :
  py_float amount = Ok amt ->
  PrimFloat.ltb amt 0 = false ->
  normalize from_code <> "" ->
  normalize to_code <> "" ->
  _get_usd_rates http_get false t1 w = (Ok (dt, VDict usd), w1) ->
  usd <> ∅ ->
  is_None (resolve usd (normalize from_code)) = false ->
  is_None (resolve usd (normalize to_code)) = false ->
  PrimFloat.ltb (t2 - ts (cache w1)) CACHE_TTL_SECS = true ->
  snd (on_convert amount from_code to_code t1 w) = w1
  /\ on_convert amount from_code to_code t2 w1
     = on_convert amount from_code to_code t1 w.
Proof.
  intros Hf Hneg Ha Hb Hg Hne Hra Hrb Hage.
  destruct (get_usd_rates_returns _ _ _ _ _ _ Hg) as [Hd Hr].
  pose proof (get_usd_rates_fresh t2 w1 usd Hr Hne Hage) as Hg2. rewrite Hd in Hg2.
  rewrite !on_convert_convert.
  rewrite !(convert_validated _ _ _ _ _ _ _ _ Hf Hneg Ha Hb), Hg, Hg2. cbv zeta.
  rewrite !resolve_lookup, Hra, Hrb. cbn [orb].
  destruct (py_truediv _ _); auto.
Qed.

(** X12.  Swap, then Convert: with a fresh table in the cache and two
    codes that resolve to non-zero float rates, the conversion of the
    swapped pair divides the other way around, on the same table and
    without a request: the rate is [rB / rA] before the swap and
    [rA / rB] after it. *)
Theorem swap_reverses_rate amount from_code to_code now1 now2 w amt usd ra rb :
  py_float amount = Ok amt ->
  PrimFloat.ltb amt 0 = false ->
  normalize from_code <> "" ->
  normalize to_code <> "" ->
  rates (cache w) = VDict usd ->
  usd <> ∅ ->
  PrimFloat.ltb (now1 - ts (cache w)) CACHE_TTL_SECS = true ->
  PrimFloat.ltb (now2 - ts (cache w)) CACHE_TTL_SECS = true ->
  resolve usd (normalize from_code) = VFloat ra ->
  resolve usd (normalize to_code) = VFloat rb ->
  PrimFloat.eqb ra 0 = false ->
  PrimFloat.eqb rb 0 = false ->
  let '(f', t') := on_swap from_code to_code in
  on_convert amount from_code to_code now1 w
  = (Ok (cross_success repr_other (amt * (rb / ra)) (rb / ra) from_code to_code
           (date (cache w))), w)
  /\ on_convert amount f' t' now2 w
     = (Ok (cross_success repr_other (amt * (ra / rb)) (ra / rb) to_code from_code
              (date (cache w))), w).
Proof.
  intros Hf Hneg Ha Hb Hr Hne H1 H2 Hra Hrb Za Zb. unfold on_swap.
  rewrite !on_convert_convert. split.
  - apply convert_cross_rate_of with (usd := usd); auto.
    + now apply get_usd_rates_fresh.
    + now rewrite Hra.
    + now rewrite Hrb.
    + rewrite Hra, Hrb. now apply py_truediv_floats.
  - apply convert_cross_rate_of with (usd := usd); auto.
    + now apply get_usd_rates_fresh.
    + now rewrite Hrb.
    + now rewrite Hra.
    + rewrite Hra, Hrb. now apply py_truediv_floats.
Qed.

Lemma mul_nan (x : float) : (nan * x)%float = nan.
Proof. apply Prim2SF_inj. rewrite mul_spec. reflexivity. Qed.

(** X13.  The amount check lets NaN through: [nan < 0] is false, so an
    amount that [float] reads as NaN (the float itself, or the text
    ["nan"]) is converted like any other, and the result text is
    ["nan"] followed by the target code. *)
Theorem convert_nan_amount amount from_code to_code now w dt usd w1 rate :
  py_float amount = Ok nan ->
  normalize from_code <> "" ->
  normalize to_code <> "" ->
  _get_usd_rates http_get false now w = (Ok (dt, VDict usd), w1) ->
  is_None (resolve usd (normalize from_code)) = false ->
  is_None (resolve usd (normalize to_code)) = false ->
  py_truediv (resolve usd (normalize to_code)) (resolve usd (normalize from_code))
    = Ok rate ->
  convert http_get repr_other amount from_code to_code now w
  = (Ok ("nan " ++ upper (or_empty to_code),
         "1 " ++ upper (or_empty from_code) ++ " = " ++ fixed6 false rate ++ " "
         ++ upper (or_empty to_code) ++ "  (last update " ++ py_str repr_other dt ++ ")"),
     w1).
Proof.
  intros Hf Ha Hb Hg Hra Hrb Hdiv.
  rewrite (convert_cross_rate_of http_get repr_other _ _ _ _ _ nan dt usd w1 rate
             Hf eq_refl Ha Hb Hg Hra Hrb Hdiv).
  unfold cross_success. now rewrite mul_nan.
Qed.

(** A code of the list resolves in the table the list was made from,
    when the table is as the service sends it: non-empty lower-case keys
    without surrounding white space, and non-zero float rates. *)
Lemma listed_code_resolves (d : gmap string value) (c : string) :
  (forall k v, d !! k = Some v ->
     k <> "" /\ lower k = k /\ strip k = k
     /\ exists x, v = VFloat x /\ PrimFloat.eqb x 0 = false) ->
  c ∈ codes_of d ->
  normalize (Some c) <> ""
  /\ exists r, resolve d (normalize (Some c)) = VFloat r /\ PrimFloat.eqb r 0 = false.
Proof.
  intros Hd Hc. apply elem_of_codes_of in Hc as [-> | (k & [v Hk] & ->)].
  - split; [discriminate|]. exists 1%float. split; reflexivity.
  - destruct (Hd k v Hk) as (Hne & Hl & Hs & x & -> & Hx).
    rewrite (normalize_upper_key k Hl Hs). split; [exact Hne|].
    unfold resolve. destruct (String.eqb k "usd").
    + exists 1%float. split; reflexivity.
    + rewrite Hk. exists x. split; [reflexivity | exact Hx].
Qed.

(** X14.  Every pair of codes that the list offers can be converted.
    After [available_codes] has stored a table as the service sends it
    (non-empty, lower-case keys without surrounding white space, non-zero
    float rates), a conversion between any two listed codes within the
    TTL succeeds through the cross-rate step, with the rates of that
    table and without a request. *)
Theorem listed_codes_convert now1 now2 w l w1 d amount amt f t :
  available_codes http_get now1 w = (Ok l, w1) ->
  rates (cache w1) = VDict d ->
  d <> ∅ ->
  (forall k v, d !! k = Some v ->
     k <> "" /\ lower k = k /\ strip k = k
     /\ exists x, v = VFloat x /\ PrimFloat.eqb x 0 = false) ->
  f ∈ l -> t ∈ l ->
  py_float amount = Ok amt ->
  PrimFloat.ltb amt 0 = false ->
  PrimFloat.ltb (now2 - now1) CACHE_TTL_SECS = true ->
  exists rf rt,
    resolve d (normalize (Some f)) = VFloat rf
    /\ resolve d (normalize (Some t)) = VFloat rt
    /\ on_convert amount (Some f) (Some t) now2 w1
       = (Ok (cross_success repr_other (amt * (rt / rf)) (rt / rf) (Some f) (Some t)
                (date (cache w1))), w1).
Proof.
  intros Hav Hr Hne Hd Hf Ht Ha Hneg Hage.
  apply available_codes_inv in Hav as (dt & d' & Hc & -> & _).
  assert (d' = d) as -> by (rewrite Hc in Hr; now injection Hr).
  apply elem_of_available_codes in Hf, Ht.
  destruct (listed_code_resolves d f Hd Hf) as (Nf & rf & Rf & Zf).
  destruct (listed_code_resolves d t Hd Ht) as (Nt & rt & Rt & Zt).
  exists rf, rt. split; [exact Rf|]. split; [exact Rt|].
  rewrite on_convert_convert.
  apply convert_cross_rate_of with (usd := d); auto.
  - apply get_usd_rates_fresh; auto. rewrite Hc. exact Hage.
  - now rewrite Rf.
  - now rewrite Rt.
  - rewrite Rf, Rt. now apply py_truediv_floats.
Qed.

(** *** The Refresh button *)




End Handlers.

(** ** Scenarios for the further properties *)

(** X3, witness: the three codes of the specification's example. *)
Lemma available_codes_list_witness :
  let l := ["USD"; "EUR"; "PKR"] in
  let w' := stored {| ts := 1100%float; date := VStr "2024-01-01";
                      rates := VDict three_codes |} (logged usd_url warm) in
  NoDup l
  /\ head l = Some "USD"
  /\ (forall c, c ∈ l -> upper c = c)
  /\ exists d, rates (cache w') = VDict d
       /\ forall c, c ∈ l <-> c = "USD" \/ exists k, is_Some (d !! k) /\ c = upper k.
Proof.
  apply (available_codes_list serving_three 1100%float warm).
  vm_compute. reflexivity.
Defined.

(** X4, witness: ["eur"] and ["Pkr"] are read as ["EUR"] and ["PKR"]. *)
Lemma convert_ignores_case_witness :
  convert offline no_repr (VInt 10) (Some "eur") (Some "Pkr") 1100%float warm
  = convert offline no_repr (VInt 10) (Some "EUR") (Some "PKR") 1100%float warm.
Proof.
  apply (convert_ignores_case offline no_repr); vm_compute; reflexivity.
Defined.

(** X5, witness: 12.5 EUR are 12.5 EUR, at the rate 0.9 / 0.9. *)
Lemma convert_same_code_witness :
  convert offline no_repr (VFloat 12.5) (Some "eur") (Some "EUR") 1100%float warm
  = (Ok ("12.500000 EUR", "1 EUR = 1.000000 EUR  (last update 2024-01-01)"), warm).
Proof.
  apply (convert_same_code offline no_repr (VFloat 12.5) (Some "eur") (Some "EUR")
           1100%float warm 12.5%float (VStr "2024-01-01") sample_rates warm 0.9%float).
  all: try (vm_compute; reflexivity).
  vm_compute. discriminate.
Defined.

(** The endpoint of ["xyz"] answers with an integer rate. *)
Definition serving_int : list string -> string -> option value :=
  serving xyz_url (response "2024-02-02" "xyz" {[ "pkr" := VInt 3 ]}).

(** X6, witness: ["xyz"] is not in the cached table, and its own table
    gives the rate as the integer 3. *)
Lemma convert_direct_never_raises_witness :
  let fetched := fst (_fetch_base_rates serving_int "xyz" warm) in
  let out :=
    fst (convert serving_int no_repr (VInt 4) (Some "XYZ") (Some "PKR") 1100%float warm) in
  (forall e, out <> Raise e)
  /\ (forall d_date d_map direct y,
        fetched = Ok (d_date, VDict d_map) ->
        d_map !! "pkr" = Some direct -> number direct = Ok y ->
        out = Ok (fixed6 true (4 * y) ++ " PKR",
                  "Rate: 1 XYZ = " ++ fixed6 false y ++ " PKR"
                  ++ "  (date " ++ py_str no_repr d_date ++ ")"))
  /\ ((forall d_date d_map direct y,
         fetched = Ok (d_date, VDict d_map) ->
         d_map !! "pkr" = Some direct -> number direct <> Ok y) ->
      out = Ok ("", "Pair not available: XYZ → PKR")).
Proof.
  apply (convert_direct_never_raises serving_int no_repr (VInt 4) (Some "XYZ")
           (Some "PKR") 1100%float warm 4%float (VStr "2024-01-01") sample_rates warm).
  - vm_compute. reflexivity.
  - vm_compute. reflexivity.
  - vm_compute. discriminate.
  - vm_compute. discriminate.
  - vm_compute. reflexivity.
  - left. vm_compute. reflexivity.
Defined.

Example integer_direct_rate :
  fst (convert serving_int no_repr (VInt 4) (Some "XYZ") (Some "PKR") 1100%float warm)
  = Ok ("12.000000 PKR", "Rate: 1 XYZ = 3.000000 PKR  (date 2024-02-02)").
Proof. vm_compute. reflexivity. Qed.

(** The service answers with a list where the rate table should be. *)
Definition serving_list : list string -> string -> option value :=
  serving usd_url
    (VDict {[ "date" := VStr "2024-01-01"; "usd" := VList [VFloat 0.9] ]}).

(** X7, witness: the list is fetched, stored, and [usd.get] fails on it. *)
Lemma convert_table_not_object_witness :
  convert serving_list no_repr (VInt 1) (Some "USD") (Some "EUR") 1000%float cold
  = (Raise AttributeError,
     stored {| ts := 1000%float; date := VStr "2024-01-01";
               rates := VList [VFloat 0.9] |} (logged usd_url cold)).
Proof.
  apply (convert_table_not_object serving_list no_repr (VInt 1) (Some "USD") (Some "EUR")
           1000%float cold 1%float (VStr "2024-01-01") (VList [VFloat 0.9])).
  - vm_compute. reflexivity.
  - vm_compute. reflexivity.
  - vm_compute. discriminate.
  - vm_compute. discriminate.
  - vm_compute. reflexivity.
  - discriminate.
  - right. vm_compute. discriminate.
Defined.

(** A cached table with a rate of zero *)
Definition zero_rate : World :=
  {| cache := {| ts := 1000%float; date := VStr "2024-01-01";
                 rates := VDict {[ "eur" := VFloat 0; "pkr" := VFloat 278.1 ]} |};
     requests := [] |}.

(** X8, witness: from a currency whose rate is zero. *)
Lemma convert_zero_rate_witness :
  convert offline no_repr (VInt 1) (Some "EUR") (Some "PKR") 1100%float zero_rate
  = (Raise ZeroDivisionError, zero_rate).
Proof.
  apply (convert_zero_rate offline no_repr (VInt 1) (Some "EUR") (Some "PKR") 1100%float
           zero_rate 1%float (VStr "2024-01-01")
           {[ "eur" := VFloat 0; "pkr" := VFloat 278.1 ]} zero_rate 0%float 278.1%float).
  all: try (vm_compute; reflexivity).
  all: vm_compute; discriminate.
Defined.

(** X9, witness: the failing input of C2.  The amount and the codes are
    valid, and what is raised is the error of the USD fetch, on the world
    that fetch left. *)
Lemma convert_exceptions_witness :
  let e := SourceUnavailable in
  let w' := {| cache := _cache;
               requests := [endpoint PRIMARY_BASE "usd"; endpoint FALLBACK_BASE "usd"] |} in
  (exists amt, py_float (VInt 1) = Ok amt /\ PrimFloat.ltb amt 0 = false)
  /\ normalize (Some "USD") <> "" /\ normalize (Some "PKR") <> ""
  /\ ((e = SourceUnavailable
       /\ _get_usd_rates offline false 1000%float cold = (Raise e, w'))
      \/ exists dt usd,
           _get_usd_rates offline false 1000%float cold = (Ok (dt, usd), w')
           /\ ((e = AttributeError /\ (forall d, usd <> VDict d)
                /\ (normalize (Some "USD") <> "usd" \/ normalize (Some "PKR") <> "usd"))
               \/ (exists d, usd = VDict d
                     /\ is_None (resolve d (normalize (Some "USD"))) = false
                     /\ is_None (resolve d (normalize (Some "PKR"))) = false
                     /\ py_truediv (resolve d (normalize (Some "PKR")))
                          (resolve d (normalize (Some "USD"))) = Raise e)
                  /\ (e = TypeError \/ e = ZeroDivisionError \/ e = OverflowError))).
Proof.
  apply (proj1 (convert_exceptions offline no_repr (VInt 1) (Some "USD") (Some "PKR")
                  1000%float cold SourceUnavailable
                  {| cache := _cache;
                     requests := [endpoint PRIMARY_BASE "usd";
                                  endpoint FALLBACK_BASE "usd"] |})).
  vm_compute. reflexivity.
Defined.

(** The same input with an unknown source code: the direct fetch fails as
    well, and nothing is raised. *)
Example direct_fetch_error_is_not_raised :
  fst (convert offline no_repr (VInt 1) (Some "XYZ") (Some "PKR") 1100%float warm)
  = Ok ("", "Pair not available: XYZ → PKR")
  /\ fst (convert offline no_repr (VStr "abc") (Some "XYZ") (Some "PKR") 1100%float warm)
     = Ok ("", "Invalid amount (must be a number).").
Proof. split; vm_compute; reflexivity. Qed.

(** X11, witness: a first conversion at time 1000 that fetches the sample
    table, and the same conversion 200 seconds later. *)
Lemma on_convert_repeatable_witness :
  let w1 := stored {| ts := 1000%float; date := VStr "2024-01-01";
                      rates := VDict sample_rates |} (logged usd_url cold) in
  snd (on_convert serving_sample no_repr (VInt 10) (Some "EUR") (Some "PKR")
         1000%float cold) = w1
  /\ on_convert serving_sample no_repr (VInt 10) (Some "EUR") (Some "PKR") 1200%float w1
     = on_convert serving_sample no_repr (VInt 10) (Some "EUR") (Some "PKR")
         1000%float cold.
Proof.
  apply (on_convert_repeatable serving_sample no_repr (VInt 10) (Some "EUR") (Some "PKR")
           1000%float 1200%float cold 10%float (VStr "2024-01-01") sample_rates).
  all: try (vm_compute; reflexivity).
  all: vm_compute; discriminate.
Defined.

(** X12, witness: EUR to PKR, and after the swap PKR to EUR. *)
Lemma swap_reverses_rate_witness :
  on_convert offline no_repr (VInt 10) (Some "EUR") (Some "PKR") 1100%float warm
  = (Ok (cross_success no_repr (10 * (278.1 / 0.9)) (278.1 / 0.9)
           (Some "EUR") (Some "PKR") (VStr "2024-01-01")), warm)
  /\ on_convert offline no_repr (VInt 10) (Some "PKR") (Some "EUR") 1101%float warm
     = (Ok (cross_success no_repr (10 * (0.9 / 278.1)) (0.9 / 278.1)
              (Some "PKR") (Some "EUR") (VStr "2024-01-01")), warm).
Proof.
  apply (swap_reverses_rate offline no_repr (VInt 10) (Some "EUR") (Some "PKR")
           1100%float 1101%float warm 10%float sample_rates 0.9%float 278.1%float).
  all: try (vm_compute; reflexivity).
  all: vm_compute; discriminate.
Defined.

Example swap_example :
  let '(f, t) := on_swap (Some "EUR") (Some "PKR") in
  fst (on_convert offline no_repr (VInt 10) f t 1101%float warm)
  = Ok ("0.032362 EUR", "1 PKR = 0.003236 EUR  (last update 2024-01-01)").
Proof. vm_compute. reflexivity. Qed.

(** X13, witness: the amount ["nan"]. *)
Lemma convert_nan_amount_witness :
  convert offline no_repr (VStr "nan") (Some "EUR") (Some "PKR") 1100%float warm
  = (Ok ("nan PKR", "1 EUR = 309.000000 PKR  (last update 2024-01-01)"), warm).
Proof.
  apply (convert_nan_amount offline no_repr (VStr "nan") (Some "EUR") (Some "PKR")
           1100%float warm (VStr "2024-01-01") sample_rates warm 309%float).
  all: try (vm_compute; reflexivity).
  all: vm_compute; discriminate.
Defined.

(** X14, witness: the list made from the sample table at time 1000, and
    [convert(10, "EUR", "PKR")] 299 seconds later. *)
Lemma listed_codes_convert_witness :
  let w1 := stored {| ts := 1000%float; date := VStr "2024-01-01";
                      rates := VDict sample_rates |} (logged usd_url cold) in
  exists rf rt,
    resolve sample_rates (normalize (Some "EUR")) = VFloat rf
    /\ resolve sample_rates (normalize (Some "PKR")) = VFloat rt
    /\ on_convert serving_sample no_repr (VInt 10) (Some "EUR") (Some "PKR") 1299%float w1
       = (Ok (cross_success no_repr (10 * (rt / rf)) (rt / rf) (Some "EUR") (Some "PKR")
                (date (cache w1))), w1).
Proof.
  apply (listed_codes_convert serving_sample no_repr 1000%float 1299%float cold
           ["USD"; "EUR"; "PKR"] _ sample_rates (VInt 10) 10%float "EUR" "PKR").
  - vm_compute. reflexivity.
  - reflexivity.
  - vm_compute. discriminate.
  - intros k v H. unfold sample_rates in H.
    apply lookup_insert_Some in H as [[<- <-] | [_ H]].
    + split; [discriminate|]. split; [reflexivity|]. split; [reflexivity|].
      exists 278.1%float. split; reflexivity.
    + apply lookup_singleton_Some in H as [<- <-].
      split; [discriminate|]. split; [reflexivity|]. split; [reflexivity|].
      exists 0.9%float. split; reflexivity.
  - apply (bool_decide_unpack _). vm_compute. exact I.
  - apply (bool_decide_unpack _). vm_compute. exact I.
  - vm_compute. reflexivity.
  - vm_compute. reflexivity.
  - vm_compute. reflexivity.
Defined.


Example refresh_requests :
  requests (snd (on_refresh serving_sample 1000%float 1001%float cold))
  = [usd_url; usd_url].
Proof. vm_compute. reflexivity. Qed.


